(** * The Montessori thesaurus SKOS service: a shallow embedding

    The development follows [src/app/skos/graph.py] (the graph query
    service), [src/scripts/import_csv.py] (the CSV import tool) and the
    handlers of [src/app/main.py] that answer with data.

    Python values are modelled as follows.
    - [str] is [string]; the text is taken to be ASCII, so that
      [str.lower], [str.strip] and [urllib.parse.quote] act byte by byte.
    - [int] is [Z]; [Optional[T]] is [option T].
    - an rdflib term is a [Node]; an rdflib [Graph] is the list of its
      triples in the order the store enumerates them (insertion order),
      without repetition.
    - a method that may raise returns a [Result]; a method of the service
      also threads the service object, whose attributes it assigns.
    - the file at the service's path is what it is for the length of one
      call: absent, or present with a modification time and a content
      that the Turtle parser accepts or refuses.
    - what an rdflib writer makes of a graph is not modelled: the
      exception a writer raises on a graph, if any, is a parameter of
      [serialize].
    The lock of the service is not modelled: calls are taken one at a
    time. *)

From Stdlib Require Import ZArith Ascii String.
From stdpp Require Import base decidable option list strings gmap.

Local Open Scope string_scope.
Local Open Scope list_scope.
Local Open Scope Z_scope.

(** ** Python strings *)

Module Py.

(** [c.isspace()] on ASCII: TAB, LF, VT, FF, CR, FS, GS, RS, US, SPACE. *)
Definition isspace (c : ascii) : bool :=
  let n := nat_of_ascii c in
  ((9 <=? n) && (n <=? 13) || (28 <=? n) && (n <=? 32))%nat.

Definition lower_char (c : ascii) : ascii :=
  let n := nat_of_ascii c in
  if ((65 <=? n) && (n <=? 90))%nat then ascii_of_nat (n + 32) else c.

(** [s.lower()] *)
Fixpoint lower (s : string) : string :=
  match s with
  | EmptyString => EmptyString
  | String c s' => String (lower_char c) (lower s')
  end.

(** [s.lstrip()] *)
Fixpoint lstrip (s : string) : string :=
  match s with
  | EmptyString => EmptyString
  | String c s' => if isspace c then lstrip s' else s
  end.

(** [s.rstrip(chars)], [chars] given as a test on characters *)
Fixpoint rstrip_by (drop : ascii -> bool) (s : string) : string :=
  match s with
  | EmptyString => EmptyString
  | String c s' =>
      match rstrip_by drop s' with
      | EmptyString => if drop c then EmptyString else String c EmptyString
      | r => String c r
      end
  end.

(** [s.strip()] *)
Definition strip (s : string) : string := lstrip (rstrip_by isspace s).

(** [s.rstrip("/")] *)
Definition rstrip_slash (s : string) : string :=
  rstrip_by (fun c => bool_decide (c = "/"%char)) s.

(** [s.replace(old, new)] for a one-character [old] *)
Fixpoint replace (old : ascii) (new : string) (s : string) : string :=
  match s with
  | EmptyString => EmptyString
  | String c s' =>
      if bool_decide (c = old) then new +:+ replace old new s'
      else String c (replace old new s')
  end.

(** [s.split(sep)] for a one-character [sep]: never empty, the pieces
    between the separators, empty pieces kept. *)
Fixpoint split (sep : ascii) (s : string) : list string :=
  match s with
  | EmptyString => [EmptyString]
  | String c s' =>
      if bool_decide (c = sep) then EmptyString :: split sep s'
      else match split sep s' with
           | [] => [String c EmptyString]
           | p :: ps => String c p :: ps
           end
  end.

(** [q in s]: [q] occurs in [s] as a substring *)
Fixpoint contains (q s : string) : bool :=
  String.prefix q s ||
  match s with
  | EmptyString => false
  | String _ s' => contains q s'
  end.

Definition hex_digit (n : nat) : ascii :=
  ascii_of_nat (if (n <? 10)%nat then 48 + n else 55 + n).

(** The characters [urllib.parse.quote] never escapes:
    letters, digits and [_.-~]. *)
Definition always_safe (c : ascii) : bool :=
  let n := nat_of_ascii c in
  ((65 <=? n) && (n <=? 90) || (97 <=? n) && (n <=? 122)
   || (48 <=? n) && (n <=? 57)
   || (n =? 95) || (n =? 46) || (n =? 45) || (n =? 126))%nat.

(** [quote(s, safe="")] *)
Fixpoint quote (s : string) : string :=
  match s with
  | EmptyString => EmptyString
  | String c s' =>
      if always_safe c then String c (quote s')
      else
        let n := nat_of_ascii c in
        String "%" (String (hex_digit (n / 16)) (String (hex_digit (n mod 16)) (quote s')))
  end.

(** [a or b] on [Optional[str]]: [None] and the empty string are false. *)
Definition str_or (a b : option string) : option string :=
  match a with
  | Some EmptyString | None => b
  | Some _ => a
  end.

(** [a or d] where [d] is a string: the result is a string. *)
Definition str_or_default (a : option string) (d : string) : string :=
  match a with
  | Some EmptyString | None => d
  | Some s => s
  end.

(** [l[start:stop]]: a negative index counts from the end, and both are
    clamped to the list. *)
Definition slice_index (len i : Z) : Z :=
  if i <? 0 then Z.max 0 (i + len) else Z.min i len.

Definition slice {A} (l : list A) (start stop : Z) : list A :=
  let len := Z.of_nat (length l) in
  let a := slice_index len start in
  let b := slice_index len stop in
  take (Z.to_nat (b - a)) (drop (Z.to_nat a) l).

End Py.

(** ** rdflib terms *)

(** The Python value rdflib keeps beside a literal's lexical form. Only
    its truth value is observed. *)
Inductive PyValue :=
  | PyStr (s : string)
  | PyInt (n : Z)
  | PyBool (b : bool)
  | PyOther (truth : bool).

Definition value_truth (v : PyValue) : bool :=
  match v with
  | PyStr s => negb (bool_decide (s = EmptyString))
  | PyInt n => negb (n =? 0)
  | PyBool b => b
  | PyOther t => t
  end.

(** An rdflib [Literal]: its text, [language], [datatype] and [value]
    (the text converted by the datatype, [None] when rdflib knows no
    conversion or the text is ill-typed). *)
Record Literal := mkLiteral {
  lexical : string;
  language : option string;
  datatype : option string;
  value : option PyValue
}.

(** [Literal(text, lang=lang)]: an empty [lang] is no language, and the
    value of a literal without datatype is its text. ([lang] is taken to
    be a language tag rdflib accepts: it raises for any other.) *)
Definition Literal_ (text : string) (lang : option string) : Literal :=
  {| lexical := text;
     language := match lang with Some EmptyString => None | _ => lang end;
     datatype := None;
     value := Some (PyStr text) |}.

(** [Literal.__bool__]: [bool(self.value)] when the value is not [None],
    else [len(self) != 0]. A literal without datatype is true exactly when
    its text is not empty. *)
Definition Literal_bool (l : Literal) : bool :=
  match value l with
  | Some v => value_truth v
  | None => negb (bool_decide (lexical l = EmptyString))
  end.

Inductive Node :=
  | URIRef (iri : string)
  | BNode (id : string)
  | Lit (l : Literal).

(** [str(node)] *)
Definition str (n : Node) : string :=
  match n with
  | URIRef s | BNode s => s
  | Lit l => lexical l
  end.

(** [bool(node)]: [URIRef] and [BNode] are strings. *)
Definition truthy (n : Node) : bool :=
  match n with
  | URIRef s | BNode s => negb (bool_decide (s = EmptyString))
  | Lit l => Literal_bool l
  end.

(** [a or b] on [Optional[Node]] *)
Definition node_or (a b : option Node) : option Node :=
  match a with
  | Some n => if truthy n then a else b
  | None => b
  end.

#[global] Instance PyValue_eq_dec : EqDecision PyValue.
Proof. solve_decision. Defined.
#[global] Instance Literal_eq_dec : EqDecision Literal.
Proof. solve_decision. Defined.
#[global] Instance Node_eq_dec : EqDecision Node.
Proof. solve_decision. Defined.

(** ** The label and definition selector *)

(** The [for] loop of [_select_lang_literal] from the candidates not yet
    visited and the current [best_langless]; the result is
    [(best_exact, best_langless)] when the loop ends. *)
Fixpoint select_scan (literals : list Node) (lang : string)
    (best_langless : option Literal) : option Literal * option Literal :=
  match literals with
  | [] => (None, best_langless)
  | Lit lit :: rest =>
      if bool_decide (language lit = Some lang) then (Some lit, best_langless)
      else if bool_decide (language lit = None) then select_scan rest lang (Some lit)
      else select_scan rest lang best_langless
  | _ :: rest => select_scan rest lang best_langless
  end.

Definition _select_lang_literal (literals : list Node) (lang : string) : option Node :=
  let '(best_exact, best_langless) := select_scan literals lang None in
  node_or (node_or (Lit <$> best_exact) (Lit <$> best_langless)) (head literals).

(** ** Graphs *)

Definition Triple : Type := Node * Node * Node.

(** The triples of an rdflib [Graph] in the store's enumeration order.
    The store is a set: a graph the program holds has no repetition
    ([NoDup]), which [add] maintains. *)
Definition Graph : Type := list Triple.

Definition subject_of (t : Triple) : Node := t.1.1.
Definition predicate_of (t : Triple) : Node := t.1.2.
Definition object_of (t : Triple) : Node := t.2.

(** [g.subjects(p, o)] *)
Definition subjects (g : Graph) (p o : Node) : list Node :=
  subject_of <$> filter (fun t => predicate_of t = p ∧ object_of t = o) g.

(** [g.objects(s, p)] *)
Definition objects (g : Graph) (s p : Node) : list Node :=
  object_of <$> filter (fun t => subject_of t = s ∧ predicate_of t = p) g.

(** [g.add(t)]: a triple already in the graph is not added again. *)
Definition add (g : Graph) (t : Triple) : Graph :=
  if decide (t ∈ g) then g else g ++ [t].

Module RDF.
Definition type : Node := URIRef "http://www.w3.org/1999/02/22-rdf-syntax-ns#type".
End RDF.

Module SKOS.
Definition ns (name : string) : Node :=
  URIRef ("http://www.w3.org/2004/02/skos/core#" +:+ name).
Definition Concept : Node := ns "Concept".
Definition ConceptScheme : Node := ns "ConceptScheme".
Definition prefLabel : Node := ns "prefLabel".
Definition altLabel : Node := ns "altLabel".
Definition definition : Node := ns "definition".
Definition broader : Node := ns "broader".
Definition narrower : Node := ns "narrower".
Definition related : Node := ns "related".
Definition inScheme : Node := ns "inScheme".
Definition notation : Node := ns "notation".
End SKOS.

Module DCTERMS.
Definition title : Node := URIRef "http://purl.org/dc/terms/title".
End DCTERMS.

(** ** The service object and its environment *)

(** What the Turtle parser makes of a file's content: the graph it
    holds, or a syntax error. (A file that is not UTF-8 text, on which
    the parser raises [UnicodeDecodeError], is not among the contents
    modelled.) *)
Inductive TurtleSource :=
  | WellFormed (g : Graph)
  | Malformed (msg : string).

(** The state of a path: no file, or a file with its modification time
    (a number, compared for equality only) and content. *)
Inductive PathState :=
  | Absent
  | Present (mtime : Z) (content : TurtleSource).

Definition FileSystem : Type := string -> PathState.

(** The exceptions the code raises or lets through: the parser's syntax
    error, [ValueError], [AssertionError], and any exception of another
    class, with its message. *)
Inductive Exception :=
  | ParserError (msg : string)
  | ValueError (msg : string)
  | AssertionError
  | OtherError (msg : string).

Inductive Result (A : Type) :=
  | Ok (a : A)
  | Raise (e : Exception).
Arguments Ok {A} a.
Arguments Raise {A} e.

Record SKOSGraphService := mkService {
  _ttl_path : string;
  _default_language : string;
  _graph : option Graph;
  _last_loaded_mtime : option Z
}.

(** [SKOSGraphService(ttl_path, default_language)] *)
Definition __init__ (ttl_path default_language : string) : SKOSGraphService :=
  {| _ttl_path := ttl_path; _default_language := default_language;
     _graph := None; _last_loaded_mtime := None |}.

Definition set_loaded (self : SKOSGraphService) (g : option Graph) (mtime : option Z)
    : SKOSGraphService :=
  {| _ttl_path := _ttl_path self; _default_language := _default_language self;
     _graph := g; _last_loaded_mtime := mtime |}.

(** A method of the service: from the file system and the service object
    to what the call returns or raises and the service object after. *)
Definition Method (A : Type) : Type :=
  FileSystem -> SKOSGraphService -> Result A * SKOSGraphService.

#[global] Instance Method_ret : MRet Method := fun A a _ self => (Ok a, self).
#[global] Instance Method_bind : MBind Method := fun A B k m fs self =>
  match m fs self with
  | (Ok a, self') => k a fs self'
  | (Raise e, self') => (Raise e, self')
  end.

Definition raise {A} (e : Exception) : Method A := fun _ self => (Raise e, self).

(** Reading an attribute of the service object. *)
Definition attr {A} (f : SKOSGraphService -> A) : Method A := fun _ self => (Ok (f self), self).

(** [os.path.getmtime(path)] with [FileNotFoundError] caught: [None]. *)
Definition getmtime (fs : FileSystem) (path : string) : option Z :=
  match fs path with
  | Absent => None
  | Present mtime _ => Some mtime
  end.

Definition _ensure_loaded : Method unit := fun fs self =>
  let mtime := getmtime fs (_ttl_path self) in
  if bool_decide (_graph self ≠ None) && bool_decide (_last_loaded_mtime self = mtime)
  then (Ok tt, self)
  else
    match fs (_ttl_path self) with
    | Absent => (Ok tt, set_loaded self (Some []) mtime)
    | Present _ (WellFormed g) => (Ok tt, set_loaded self (Some g) mtime)
    | Present _ (Malformed msg) => (Raise (ParserError msg), self)
    end.

Definition reload : Method unit := fun fs self =>
  _ensure_loaded fs (set_loaded self None None).

Definition get_graph : Method Graph :=
  _ensure_loaded ;;
  graph ← attr _graph;
  match graph with
  | Some g => mret g
  | None => raise AssertionError
  end.

(** ** Query helpers *)

Record ConceptSummary := mkSummary {
  iri : string;
  pref_label : option string;
  definition : option string
}.

Definition _get_best_label (g : Graph) (subject : Node) (lang : string) : option string :=
  let labels := objects g subject SKOS.prefLabel in
  str <$> _select_lang_literal labels lang.

Definition _get_best_definition (g : Graph) (subject : Node) (lang : string) : option string :=
  let defs := objects g subject SKOS.definition in
  str <$> _select_lang_literal defs lang.

(** The summary [list_concepts] appends for a subject. *)
Definition summarize (g : Graph) (lang : string) (subject : Node) : ConceptSummary :=
  {| iri := str subject;
     pref_label := _get_best_label g subject lang;
     definition := _get_best_definition g subject lang |}.

(** The body of [list_concepts] once [get_graph] has returned [g]. *)
Definition list_concepts_in (g : Graph) (default_language : string)
    (limit offset : Z) (lang : option string) : list ConceptSummary * Z :=
  let lang := Py.str_or_default lang default_language in
  let all_concepts := subjects g RDF.type SKOS.Concept in
  let total := Z.of_nat (length all_concepts) in
  let concepts := summarize g lang <$> Py.slice all_concepts offset (offset + limit) in
  (concepts, total).

Definition list_concepts (limit offset : Z) (lang : option string)
    : Method (list ConceptSummary * Z) :=
  g ← get_graph;
  default_language ← attr _default_language;
  mret (list_concepts_in g default_language limit offset lang).

(** The labels [search_concepts] scans for a subject: its prefLabels,
    then its altLabels. *)
Definition search_labels (g : Graph) (subject : Node) : list Node :=
  objects g subject SKOS.prefLabel ++ objects g subject SKOS.altLabel.

(** The summary [search_concepts] appends for a subject and the text of
    its matched label. *)
Definition hit (g : Graph) (lang : string) (subject : Node) (matched_label : string)
    : ConceptSummary :=
  {| iri := str subject;
     pref_label := Some matched_label;
     definition := _get_best_definition g subject lang |}.

(** The inner loop of [search_concepts]: the text of the first label that
    is a literal, has no language or the requested one, and contains the
    lowered query. *)
Fixpoint match_label (labels : list Node) (lang lower_q : string) : option string :=
  match labels with
  | [] => None
  | Lit label :: rest =>
      if bool_decide (language label = None) || bool_decide (language label = Some lang)
      then
        let label_text := lexical label in
        if Py.contains lower_q (Py.lower label_text) then Some label_text
        else match_label rest lang lower_q
      else match_label rest lang lower_q
  | _ :: rest => match_label rest lang lower_q
  end.

(** The outer loop of [search_concepts] over the subjects not yet
    visited, from the results collected so far. *)
Fixpoint search_loop (g : Graph) (lang lower_q : string) (limit : Z)
    (todo : list Node) (results : list ConceptSummary) : list ConceptSummary :=
  match todo with
  | [] => results
  | subject :: rest =>
      let labels := search_labels g subject in
      let results' :=
        match match_label labels lang lower_q with
        | Some matched_label => results ++ [hit g lang subject matched_label]
        | None => results
        end in
      if Z.of_nat (length results') >=? limit then results'
      else search_loop g lang lower_q limit rest results'
  end.

(** The body of [search_concepts] once [get_graph] has returned [g]. *)
Definition search_concepts_in (g : Graph) (default_language : string)
    (query : string) (limit : Z) (lang : option string) : list ConceptSummary :=
  let lang := Py.str_or_default lang default_language in
  let lower_q := Py.lower query in
  search_loop g lang lower_q limit (subjects g RDF.type SKOS.Concept) [].

Definition search_concepts (query : string) (limit : Z) (lang : option string)
    : Method (list ConceptSummary) :=
  g ← get_graph;
  default_language ← attr _default_language;
  mret (search_concepts_in g default_language query limit lang).

(** [values.setdefault(lang, []).append(text)] on a dict kept in insertion
    order. *)
Fixpoint setdefault_append (values : list (string * list string)) (lang text : string)
    : list (string * list string) :=
  match values with
  | [] => [(lang, [text])]
  | (k, v) :: rest =>
      if bool_decide (k = lang) then (k, v ++ [text]) :: rest
      else (k, v) :: setdefault_append rest lang text
  end.

Definition _get_literals (g : Graph) (subject predicate : Node)
    : list (string * list string) :=
  fold_left
    (fun values o =>
       match o with
       | Lit lit => setdefault_append values (Py.str_or_default (language lit) "und") (lexical lit)
       | _ => values
       end)
    (objects g subject predicate) [].

(** The dict [get_concept_detail] returns, a field per key. *)
Record ConceptDetail := mkDetail {
  detail_iri : string;
  detail_prefLabel : list (string * list string);
  detail_altLabel : list (string * list string);
  detail_definition : list (string * list string);
  detail_broader : list string;
  detail_narrower : list string;
  detail_related : list string;
  detail_inScheme : list string;
  detail_notation : list string;
  detail_bestPrefLabel : option string;
  detail_bestDefinition : option string
}.

(** The body of [get_concept_detail] once [get_graph] has returned [g]. *)
Definition get_concept_detail_in (g : Graph) (default_language : string)
    (iri : string) (lang : option string) : option ConceptDetail :=
  let lang := Py.str_or_default lang default_language in
  let subject := URIRef iri in
  if bool_decide ((subject, RDF.type, SKOS.Concept) ∉ g) then None
  else Some
    {| detail_iri := iri;
       detail_prefLabel := _get_literals g subject SKOS.prefLabel;
       detail_altLabel := _get_literals g subject SKOS.altLabel;
       detail_definition := _get_literals g subject SKOS.definition;
       detail_broader := str <$> objects g subject SKOS.broader;
       detail_narrower := str <$> objects g subject SKOS.narrower;
       detail_related := str <$> objects g subject SKOS.related;
       detail_inScheme := str <$> objects g subject SKOS.inScheme;
       detail_notation := str <$> objects g subject SKOS.notation;
       detail_bestPrefLabel := _get_best_label g subject lang;
       detail_bestDefinition := _get_best_definition g subject lang |}.

Definition get_concept_detail (iri : string) (lang : option string)
    : Method (option ConceptDetail) :=
  g ← get_graph;
  default_language ← attr _default_language;
  mret (get_concept_detail_in g default_language iri lang).

(** The text [g.serialize(format=..., indent=...)] returns is the rdflib
    writer's and is not modelled: a payload records the writer's name,
    the indent and the graph. *)
Inductive Payload :=
  | rdflib_serialize (format : string) (indent : option Z) (g : Graph).

(** A writer does not return for every graph: the RDF/XML writer raises
    [ValueError] when it cannot split the IRI of a predicate into a
    namespace and a local name. Which graphs a writer refuses is decided
    in rdflib and is not modelled either: [writer_error name g] is the
    exception the writer called [name] raises on [g], if it raises. No
    writer refuses the empty graph. *)
Record Writers := mkWriters {
  writer_error : string -> Graph -> option Exception;
  writer_error_empty : forall name, writer_error name [] = None
}.

(** [g.serialize(format=name, indent=indent)] *)
Definition Graph_serialize (writers : Writers) (name : string) (indent : option Z)
    (g : Graph) : Method Payload :=
  match writer_error writers name g with
  | Some e => raise e
  | None => mret (rdflib_serialize name indent g)
  end.

Definition serialize (writers : Writers) (format : string) : Method (Payload * string) :=
  g ← get_graph;
  let fmt := Py.lower format in
  if bool_decide (fmt ∈ ["ttl"; "turtle"])
  then data ← Graph_serialize writers "turtle" None g; mret (data, "text/turtle")
  else if bool_decide (fmt ∈ ["jsonld"; "json-ld"])
  then data ← Graph_serialize writers "json-ld" (Some 2) g;
       mret (data, "application/ld+json")
  else if bool_decide (fmt ∈ ["xml"; "rdf"; "rdfxml"; "rdf/xml"])
  then data ← Graph_serialize writers "xml" None g; mret (data, "application/rdf+xml")
  else if bool_decide (fmt ∈ ["nt"; "ntriples"; "n-triples"])
  then data ← Graph_serialize writers "nt" None g; mret (data, "application/n-triples")
  else raise (ValueError ("Unsupported format: " +:+ format)).

(** ** The CSV import tool *)

Definition slugify (value : string) : string :=
  Py.quote (Py.replace " " "-" (Py.lower (Py.strip value))).

(** [{base_iri.rstrip("/")}/scheme] *)
Definition scheme_of (base_iri : string) : Node :=
  URIRef (Py.rstrip_slash base_iri +:+ "/scheme").

(** The label cell of a row, trimmed. A row of [csv.DictReader] is a dict
    from column names to cells; [row.get] of a missing column or cell is
    [None]. *)
Definition row_label (row : gmap string string) : string :=
  Py.strip
    (Py.str_or_default
       (Py.str_or (Py.str_or (row !! "prefLabel") (row !! "label")) (row !! "term")) "").

Definition row_slug (row : gmap string string) : string :=
  Py.str_or_default (row !! "id") (slugify (row_label row)).

Definition row_iri (base_iri : string) (row : gmap string string) : Node :=
  URIRef (Py.rstrip_slash base_iri +:+ "/concept/" +:+ row_slug row).

Definition row_definition (row : gmap string string) : string :=
  Py.strip (Py.str_or_default (Py.str_or (row !! "definition") (row !! "desc")) "").

Definition row_alt (row : gmap string string) : string :=
  Py.strip (Py.str_or_default (Py.str_or (row !! "altLabel") (row !! "alt")) "").

(** [[a.strip() for a in alt.split("|") if a.strip()]] *)
Definition alt_items (alt : string) : list string :=
  filter (fun a => a ≠ EmptyString) (Py.strip <$> Py.split "|" alt).

(** The body of the [for row in reader] loop. *)
Definition import_row (base_iri lang : string) (g : Graph) (row : gmap string string)
    : Graph :=
  let scheme := scheme_of base_iri in
  let label := row_label row in
  if bool_decide (label = EmptyString) then g
  else
    let iri := row_iri base_iri row in
    let g := add g (iri, RDF.type, SKOS.Concept) in
    let g := add g (iri, SKOS.inScheme, scheme) in
    let g := add g (iri, SKOS.prefLabel, Lit (Literal_ label (Some lang))) in
    let definition := row_definition row in
    let g :=
      if bool_decide (definition = EmptyString) then g
      else add g (iri, SKOS.definition, Lit (Literal_ definition (Some lang))) in
    let alt := row_alt row in
    if bool_decide (alt = EmptyString) then g
    else
      fold_left
        (fun g alt_item => add g (iri, SKOS.altLabel, Lit (Literal_ alt_item (Some lang))))
        (alt_items alt) g.

(** [import_csv_to_skos] on the rows [csv.DictReader] yields: the graph
    it has built when it serialises it, and the concept count it prints.
    Reading the file and the Turtle writer are not modelled. *)
Definition import_csv_to_skos (rows : list (gmap string string)) (base_iri lang : string)
    : Graph * Z :=
  let scheme := scheme_of base_iri in
  let g := add [] (scheme, RDF.type, SKOS.ConceptScheme) in
  let g := add g (scheme, DCTERMS.title,
                  Lit (Literal_ "Montessori Glossary Vocabulary" (Some lang))) in
  let g := fold_left (import_row base_iri lang) rows g in
  (g, Z.of_nat (length (subjects g RDF.type SKOS.Concept))).

(** ** Reference notions for the selector

    What section 4.2 of the specification speaks of, defined on the
    candidate list alone. *)

Definition is_exact (lang : string) (n : Node) : bool :=
  match n with
  | Lit l => bool_decide (language l = Some lang)
  | _ => false
  end.

(** The first candidate that is a literal tagged [lang]. *)
Fixpoint first_exact (literals : list Node) (lang : string) : option Literal :=
  match literals with
  | [] => None
  | Lit l :: rest =>
      if bool_decide (language l = Some lang) then Some l else first_exact rest lang
  | _ :: rest => first_exact rest lang
  end.

(** The candidates that come before the first literal tagged [lang]. *)
Fixpoint before_exact (literals : list Node) (lang : string) : list Node :=
  match literals with
  | [] => []
  | n :: rest => if is_exact lang n then [] else n :: before_exact rest lang
  end.

(** The last candidate that is a literal without language. *)
Fixpoint last_langless (literals : list Node) : option Literal :=
  match literals with
  | [] => None
  | n :: rest =>
      match last_langless rest with
      | Some l => Some l
      | None => match n with
                | Lit l => if bool_decide (language l = None) then Some l else None
                | _ => None
                end
      end
  end.

(** ** Reference notions for the service and the import tool *)

(** The format names [serialize] accepts, lower case. *)
Definition supported_formats : list string :=
  ["ttl"; "turtle"; "jsonld"; "json-ld"; "xml"; "rdf"; "rdfxml"; "rdf/xml";
   "nt"; "ntriples"; "n-triples"].


(** The states of the service object: as constructed, and after any
    sequence of [_ensure_loaded] and [reload] calls (every query calls
    [_ensure_loaded] and assigns nothing else), the file system being
    whatever it is at each call. *)
Inductive reachable : SKOSGraphService -> Prop :=
  | reachable_init ttl_path default_language :
      reachable (__init__ ttl_path default_language)
  | reachable_ensure_loaded fs self :
      reachable self -> reachable (_ensure_loaded fs self).2
  | reachable_reload fs self :
      reachable self -> reachable (reload fs self).2.

(** A snapshot recorded with no timestamp was loaded from no file. *)
Definition consistent (self : SKOSGraphService) : Prop :=
  _last_loaded_mtime self = None -> forall g, _graph self = Some g -> g = [].

(** A candidate label counts for a query: it is a literal, has no
    language or the requested one, and its lowered text contains the
    lowered query. *)
Definition label_matches (lang lower_q : string) (n : Node) : bool :=
  match n with
  | Lit l =>
      (bool_decide (language l = None) || bool_decide (language l = Some lang))
      && Py.contains lower_q (Py.lower (lexical l))
  | _ => false
  end.

(** The cell of a row that counts among several columns: the cell under
    the first of the columns that has one other than the empty string,
    and the empty string when no column has. *)
Fixpoint first_cell (row : gmap string string) (columns : list string) : string :=
  match columns with
  | [] => EmptyString
  | column :: columns' =>
      match row !! column with
      | Some (String c s) => String c s
      | _ => first_cell row columns'
      end
  end.

(** The two triples of the scheme, which the tool adds first. *)
Definition scheme_triples (base_iri lang : string) : list Triple :=
  [ (scheme_of base_iri, RDF.type, SKOS.ConceptScheme);
    (scheme_of base_iri, DCTERMS.title,
     Lit (Literal_ "Montessori Glossary Vocabulary" (Some lang))) ].

(** A row the loop does not skip. *)
Definition valid_row (row : gmap string string) : Prop := row_label row <> EmptyString.

#[global] Instance valid_row_dec row : Decision (valid_row row).
Proof. unfold valid_row. apply _. Defined.

(** The triples the loop body adds for a row with a label, in order. *)
Definition row_triples (base_iri lang : string) (row : gmap string string) : list Triple :=
  let iri := row_iri base_iri row in
  [ (iri, RDF.type, SKOS.Concept);
    (iri, SKOS.inScheme, scheme_of base_iri);
    (iri, SKOS.prefLabel, Lit (Literal_ (row_label row) (Some lang))) ]
  ++ (if bool_decide (row_definition row = EmptyString) then []
      else [ (iri, SKOS.definition, Lit (Literal_ (row_definition row) (Some lang))) ])
  ++ ((fun alt_item => (iri, SKOS.altLabel, Lit (Literal_ alt_item (Some lang))))
      <$> alt_items (row_alt row)).

(** ** Sample inputs *)

(** The candidates on which an exact match is displaced. *)
Definition displaced_exact : list Node :=
  [Lit (Literal_ "Apple" None); Lit (Literal_ "" (Some "en"))].

(** The candidates on which a literal without language is displaced. *)
Definition displaced_langless : list Node :=
  [Lit (Literal_ "Pomme" (Some "fr")); Lit (Literal_ "" None)].

Definition no_file : FileSystem := fun _ => Absent.

Definition fresh_service : SKOSGraphService := __init__ "data/vocabulary.ttl" "en".

Definition apple : Node := URIRef "http://example.org/apple".

(** One concept, [ex:apple], with prefLabel ["Apple"@en] and altLabel
    ["Pomme"@en]. *)
Definition apple_graph : Graph :=
  [ (apple, RDF.type, SKOS.Concept);
    (apple, SKOS.prefLabel, Lit (Literal_ "Apple" (Some "en")));
    (apple, SKOS.altLabel, Lit (Literal_ "Pomme" (Some "en"))) ].

Definition good_file : FileSystem := fun _ => Present 1 (WellFormed apple_graph).

Definition bad_file : FileSystem := fun _ => Present 2 (Malformed "Bad syntax").

(** The service after a first successful load. *)
Definition loaded_service : SKOSGraphService := (_ensure_loaded good_file fresh_service).2.

(** A graph with the predicate [<http://example.org/>], an IRI that has
    no local name: the content of the Turtle file
    [<http://example.org/apple> <http://example.org/> "x" .] *)
Definition no_local_name_graph : Graph :=
  [ (apple, URIRef "http://example.org/", Lit (Literal_ "x" None)) ].

Definition no_local_name_file : FileSystem :=
  fun _ => Present 3 (WellFormed no_local_name_graph).

(** The writers on the sample graphs: the RDF/XML writer refuses a graph
    with the predicate [<http://example.org/>], which it cannot split;
    every other call returns. *)
Definition sample_writer_error (name : string) (g : Graph) : option Exception :=
  match List.find (fun t => bool_decide (predicate_of t = URIRef "http://example.org/")) g with
  | Some _ =>
      if bool_decide (name = "xml")
      then Some (ValueError "Can't split 'http://example.org/'")
      else None
  | None => None
  end.

Definition sample_writers : Writers :=
  {| writer_error := sample_writer_error; writer_error_empty := fun _ => eq_refl |}.

(** Three concepts paged by two. *)
Definition three_concepts : Graph :=
  [ (URIRef "http://example.org/a", RDF.type, SKOS.Concept);
    (URIRef "http://example.org/b", RDF.type, SKOS.Concept);
    (URIRef "http://example.org/b", SKOS.prefLabel, Lit (Literal_ "B" (Some "en")));
    (URIRef "http://example.org/c", RDF.type, SKOS.Concept) ].

(** The row of the specification's scenario. *)
Definition sensorial_row : gmap string string :=
  {[ "prefLabel" := "Sensorial Materials";
     "definition" := "Materials engaging the senses";
     "altLabel" := "Sensory Materials|Sensorial Tools" ]}.

(** A row with a blank definition cell and a blank and a repeated piece
    in its altLabel cell. *)
Definition blank_cells_row : gmap string string :=
  {[ "prefLabel" := "Apple"; "definition" := " "; "altLabel" := "Fruit| |Fruit" ]}.

(** A row that names its cells by the other column names and gives an
    [id]: the [prefLabel] cell is empty, and the cells have blanks around
    their text. *)
Definition alias_row : gmap string string :=
  {[ "prefLabel" := ""; "term" := " Sandpaper Letters ";
     "desc" := " Letters cut from sandpaper "; "alt" := " Tactile letters | ";
     "id" := "sl-1" ]}.

(** A row whose [prefLabel] cell is blank and whose [label] cell has a
    label. *)
Definition hidden_label_row : gmap string string :=
  {[ "prefLabel" := " "; "label" := "Apple" ]}.

(** Two rows, the second with the label of the first in another letter
    case and with a hyphen for the space. *)
Definition practical_life_row : gmap string string :=
  {[ "prefLabel" := "Practical Life"; "definition" := "Everyday activities" ]}.

Definition practical_life_again : gmap string string :=
  {[ "prefLabel" := "practical-life"; "altLabel" := "Daily living" ]}.

Definition colliding_rows : list (gmap string string) :=
  [practical_life_row; practical_life_again].

(** ** Reference notions for the further properties *)

(** The hits of a search without limit: a summary for every subject with
    a matching label, in the order given. *)
Definition all_hits (g : Graph) (lang lower_q : string) (todo : list Node)
    : list ConceptSummary :=
  omap (fun subject => hit g lang subject <$> match_label (search_labels g subject) lang lower_q)
       todo.

(** The key [_get_literals] files a literal under: its language, or
    ["und"] when it has none. *)
Definition lang_key (l : Literal) : string := Py.str_or_default (language l) "und".

(** The texts of the literals among [objs] whose key is [k], in order. *)
Definition texts_under (k : string) (objs : list Node) : list string :=
  omap (fun o =>
          match o with
          | Lit l => if bool_decide (lang_key l = k) then Some (lexical l) else None
          | _ => None
          end)
       objs.

(** What the loop of [_get_literals] keeps: the keys are distinct, and
    each is filed with the texts seen so far under it, which are not
    none. *)
Definition groups_of (values : list (string * list string)) (seen : list Node) : Prop :=
  NoDup (fst <$> values)
  /\ forall k texts, (k, texts) ∈ values <-> texts <> [] /\ texts = texts_under k seen.


(** Every character of a string passes a test. *)
Fixpoint all_chars (p : ascii -> bool) (s : string) : bool :=
  match s with
  | EmptyString => true
  | String c s' => p c && all_chars p s'
  end.

(** The characters a slug holds as they are: lower-case letters, digits
    and [_.-~]. *)
Definition slug_plain (c : ascii) : bool :=
  let n := nat_of_ascii c in
  ((97 <=? n) && (n <=? 122) || (48 <=? n) && (n <=? 57)
   || (n =? 95) || (n =? 46) || (n =? 45) || (n =? 126))%nat.

(** A hexadecimal digit as an escape writes it: [0]-[9], [A]-[F]. *)
Definition upper_hex (c : ascii) : bool :=
  let n := nat_of_ascii c in
  ((48 <=? n) && (n <=? 57) || (65 <=? n) && (n <=? 70))%nat.

(** The shape of a slug: a sequence of plain characters and of escapes,
    a percent sign followed by two upper-case hexadecimal digits. *)
Fixpoint slug_shape (s : string) : bool :=
  match s with
  | EmptyString => true
  | String c s' =>
      if slug_plain c then slug_shape s'
      else
        bool_decide (c = "%"%char)
        && match s' with
           | String h1 (String h2 s'') => upper_hex h1 && upper_hex h2 && slug_shape s''
           | _ => false
           end
  end.

Definition is_upper (c : ascii) : bool :=
  let n := nat_of_ascii c in ((65 <=? n) && (n <=? 90))%nat.

(** ** The HTTP handlers of [src/app/main.py]

    The handlers that answer with data are modelled as functions of
    their arguments over the one service object of the module; the
    framework around them and the HTML pages are not. *)

(** The value of a hexadecimal digit, in either letter case. *)
Definition hex_value (c : ascii) : option nat :=
  let n := nat_of_ascii c in
  if ((48 <=? n) && (n <=? 57))%nat then Some (n - 48)%nat
  else if ((65 <=? n) && (n <=? 70))%nat then Some (n - 55)%nat
  else if ((97 <=? n) && (n <=? 102))%nat then Some (n - 87)%nat
  else None.

(** [urllib.parse.unquote(s)], on the bytes of the text: a percent sign
    followed by two hexadecimal digits is the byte they write, and any
    other percent sign stays. (Python then reads the bytes as UTF-8,
    which leaves ASCII text as it is.) *)
Fixpoint unquote (s : string) : string :=
  match s with
  | EmptyString => EmptyString
  | String c s' =>
      if bool_decide (c = "%"%char) then
        match s' with
        | String h1 (String h2 s'') =>
            match hex_value h1, hex_value h2 with
            | Some a, Some b => String (ascii_of_nat (16 * a + b)) (unquote s'')
            | _, _ => String c (unquote s')
            end
        | _ => String c (unquote s')
        end
      else String c (unquote s')
  end.

(** What a handler does: it answers, raises an [HTTPException], or lets
    an exception of the service through. *)
Inductive Response (A : Type) :=
  | Respond (content : A)
  | HTTPException (status_code : Z) (detail : string)
  | Unhandled (e : Exception).
Arguments Respond {A} content.
Arguments HTTPException {A} status_code detail.
Arguments Unhandled {A} e.

Definition Handler (A : Type) : Type :=
  FileSystem -> SKOSGraphService -> Response A * SKOSGraphService.

(** The body of [GET /concepts]: the list of the summaries found, or the
    total with the summaries of a page. *)
Inductive ConceptsBody :=
  | FoundBody (items : list ConceptSummary)
  | PageBody (total : Z) (items : list ConceptSummary).

Module main.

(** [list_concepts(q, limit, offset)]: [if q] is false for [None] and for
    the empty string. *)
Definition list_concepts (q : option string) (limit offset : Z) : Handler ConceptsBody :=
  fun fs self =>
    match q with
    | Some (String c q') =>
        match search_concepts (String c q') limit None fs self with
        | (Ok results, self') => (Respond (FoundBody results), self')
        | (Raise e, self') => (Unhandled e, self')
        end
    | _ =>
        match list_concepts limit offset None fs self with
        | (Ok (results, total), self') => (Respond (PageBody total results), self')
        | (Raise e, self') => (Unhandled e, self')
        end
    end.

Definition get_concept (iri_encoded : string) : Handler ConceptDetail :=
  fun fs self =>
    let iri := unquote iri_encoded in
    match get_concept_detail iri None fs self with
    | (Ok None, self') => (HTTPException 404 "Concept not found", self')
    | (Ok (Some detail), self') => (Respond detail, self')
    | (Raise e, self') => (Unhandled e, self')
    end.


End main.

(** * Properties *)

(** ** Strings *)

Lemma prefix_refl (s : string) : String.prefix s s = true.
Proof.
  induction s as [|c s IH]; simpl; [done|].
  destruct (ascii_dec c c); [done|congruence].
Qed.

Lemma prefix_app (q s : string) : String.prefix q (q +:+ s) = true.
Proof.
  induction q as [|c q IH]; simpl; [by destruct s|].
  destruct (ascii_dec c c); [done|congruence].
Qed.

Lemma prefix_inv (q s : string) :
  String.prefix q s = true -> exists post, s = q +:+ post.
Proof.
  revert s. induction q as [|c q IH]; intros s H.
  - by exists s.
  - destruct s as [|d s]; simpl in H; [done|].
    destruct (ascii_dec c d) as [->|]; [|done].
    destruct (IH _ H) as [post ->]. by exists post.
Qed.

(** [Py.contains q s] holds exactly when [q] is a substring of [s]. *)
Lemma contains_spec (q s : string) :
  Py.contains q s = true <-> exists pre post, s = pre +:+ q +:+ post.
Proof.
  split.
  - induction s as [|c s IH]; cbn [Py.contains]; intros H.
    + apply orb_true_iff in H as [H|H]; [|done].
      apply prefix_inv in H as [post ->]. by exists EmptyString, post.
    + apply orb_true_iff in H as [H|H].
      * apply prefix_inv in H as [post ->]. by exists EmptyString, post.
      * destruct (IH H) as (pre & post & ->). by exists (String c pre), post.
  - intros (pre & post & ->). induction pre as [|c pre IH].
    + change (EmptyString +:+ q +:+ post) with (q +:+ post).
      destruct (q +:+ post) eqn:E; cbn [Py.contains]; rewrite <- E, prefix_app; done.
    + change (String c pre +:+ q +:+ post) with (String c (pre +:+ q +:+ post)).
      cbn [Py.contains]. rewrite IH. apply orb_true_r.
Qed.

Lemma contains_empty (s : string) : Py.contains EmptyString s = true.
Proof. apply contains_spec. by exists EmptyString, s. Qed.

Lemma append_empty_r (s : string) : s +:+ EmptyString = s.
Proof.
  induction s as [|c s IH]; [done|].
  change (String c s +:+ EmptyString) with (String c (s +:+ EmptyString)).
  by rewrite IH.
Qed.

Lemma contains_app_r (p q : string) : Py.contains q (p +:+ q) = true.
Proof.
  apply contains_spec. exists p, EmptyString. by rewrite append_empty_r.
Qed.

Lemma lower_char_idemp (c : ascii) : Py.lower_char (Py.lower_char c) = Py.lower_char c.
Proof.
  destruct c as [[] [] [] [] [] [] [] []]; reflexivity.
Qed.

(** Lowering is idempotent: a name that is already lower case is kept. *)
Lemma lower_idemp (s : string) : Py.lower (Py.lower s) = Py.lower s.
Proof.
  induction s as [|c s IH]; simpl; [done|]. by rewrite lower_char_idemp, IH.
Qed.

Lemma rstrip_by_idemp drop s : Py.rstrip_by drop (Py.rstrip_by drop s) = Py.rstrip_by drop s.
Proof.
  induction s as [|c s IH]; [done|]. cbn [Py.rstrip_by].
  destruct (Py.rstrip_by drop s) as [|c' r] eqn:E.
  - destruct (drop c) eqn:Ed; [done|]. cbn [Py.rstrip_by]. by rewrite Ed.
  - cbn [Py.rstrip_by]. cbn [Py.rstrip_by] in IH. by rewrite IH.
Qed.

Lemma lstrip_idemp s : Py.lstrip (Py.lstrip s) = Py.lstrip s.
Proof.
  induction s as [|c s IH]; [done|]. cbn [Py.lstrip].
  destruct (Py.isspace c) eqn:E; [done|]. cbn [Py.lstrip]. by rewrite E.
Qed.

Lemma rstrip_lstrip t :
  Py.rstrip_by Py.isspace t = t ->
  Py.rstrip_by Py.isspace (Py.lstrip t) = Py.lstrip t.
Proof.
  induction t as [|c t IH]; [done|]. intros Ht. cbn [Py.lstrip].
  destruct (Py.isspace c) eqn:E; [|done].
  apply IH. cbn [Py.rstrip_by] in Ht.
  destruct (Py.rstrip_by Py.isspace t) as [|c' r]; [by rewrite E in Ht|].
  by injection Ht.
Qed.

(** Trimming twice is trimming once. *)
Lemma strip_idemp s : Py.strip (Py.strip s) = Py.strip s.
Proof.
  unfold Py.strip.
  rewrite (rstrip_lstrip (Py.rstrip_by Py.isspace s)) by apply rstrip_by_idemp.
  apply lstrip_idemp.
Qed.

(** ** The selector *)

(** The loop computes the first exact match and, over the candidates seen
    before it, the last literal without language. *)
Lemma select_scan_spec (literals : list Node) (lang : string) (b : option Literal) :
  select_scan literals lang b =
  (first_exact literals lang,
   match last_langless (before_exact literals lang) with
   | Some l => Some l
   | None => b
   end).
Proof.
  revert b. induction literals as [|n rest IH]; intros b; simpl; [done|].
  destruct n as [s|s|l]; simpl.
  - rewrite IH. by destruct (last_langless _).
  - rewrite IH. by destruct (last_langless _).
  - case_bool_decide as Hex; simpl; [done|].
    case_bool_decide as Hnone; rewrite IH; by destruct (last_langless _).
Qed.

Lemma before_exact_none (literals : list Node) (lang : string) :
  first_exact literals lang = None -> before_exact literals lang = literals.
Proof.
  induction literals as [|n rest IH]; simpl; [done|].
  destruct n as [s|s|l]; simpl; intros H; try (by rewrite IH).
  case_bool_decide; [done|]. by rewrite IH.
Qed.

(** What the selector returns, in the terms of the specification: the
    first exact match if it is true as a Python value, else the last
    literal without language seen before it if that one is true, else the
    first candidate. *)
Lemma select_lang_literal_spec (literals : list Node) (lang : string) :
  _select_lang_literal literals lang =
  node_or
    (node_or (Lit <$> first_exact literals lang)
             (Lit <$> last_langless (before_exact literals lang)))
    (head literals).
Proof.
  unfold _select_lang_literal. rewrite select_scan_spec.
  by destruct (last_langless _).
Qed.

(** X2. An exact match that is true as a Python value (for a label: a
    non-empty text) is returned, whatever follows or precedes it. *)
Lemma select_exact_truthy (literals : list Node) (lang : string) (lit : Literal) :
  first_exact literals lang = Some lit ->
  Literal_bool lit = true ->
  _select_lang_literal literals lang = Some (Lit lit).
Proof.
  intros Hex Ht. rewrite select_lang_literal_spec, Hex.
  unfold node_or. simpl. rewrite Ht. simpl. by rewrite Ht.
Qed.

(** X3. Without exact match, the last literal without language is returned
    when it is true as a Python value; without any, the first candidate;
    and nothing for no candidate. *)
Lemma select_fallback (literals : list Node) (lang : string) :
  first_exact literals lang = None ->
  (forall lit, last_langless literals = Some lit -> Literal_bool lit = true ->
     _select_lang_literal literals lang = Some (Lit lit))
  /\ (last_langless literals = None -> _select_lang_literal literals lang = head literals)
  /\ _select_lang_literal [] lang = None.
Proof.
  intros Hex. rewrite select_lang_literal_spec, Hex, (before_exact_none _ _ Hex).
  split; [|split]; [| |done].
  - intros lit -> Ht. unfold node_or. simpl. by rewrite Ht.
  - by intros ->.
Qed.

(** C1. The selector is to return the first literal tagged with the
    requested language. On the candidates ["Apple"] (no language) and
    [""@en] with language [en], the first exact match is [""@en], and the
    selector returns ["Apple"]: the final [best_exact or best_langless]
    tests the truth of the literal, and an empty literal is false. *)
Theorem C1_exact_match_displaced :
  first_exact displaced_exact "en" = Some (Literal_ "" (Some "en"))
  /\ _select_lang_literal displaced_exact "en" = Some (Lit (Literal_ "Apple" None)).
Proof. split; reflexivity. Qed.

(** C2. Without exact match the selector is to return the last literal
    without language. On the candidates ["Pomme"@fr] and [""] (no
    language) with language [en], there is no exact match, the last
    literal without language is [""], and the selector returns
    ["Pomme"@fr]: [best_langless or ...] tests the truth of the literal. *)
Theorem C2_langless_displaced :
  first_exact displaced_langless "en" = None
  /\ last_langless displaced_langless = Some (Literal_ "" None)
  /\ _select_lang_literal displaced_langless "en" = Some (Lit (Literal_ "Pomme" (Some "fr"))).
Proof. repeat split; reflexivity. Qed.

(** ** Loading and reloading *)

Lemma ensure_loaded_consistent fs self :
  consistent self -> consistent (_ensure_loaded fs self).2.
Proof.
  unfold consistent, _ensure_loaded, getmtime. intros Hc.
  destruct (fs (_ttl_path self)) as [|mtime [g|msg]]; simpl;
    repeat case_bool_decide; simpl; try done; intros _ g' [= <-]; done.
Qed.

Lemma reachable_consistent self : reachable self -> consistent self.
Proof.
  induction 1 as [p l|fs self _ IH|fs self _ IH].
  - by intros _ g.
  - by apply ensure_loaded_consistent.
  - unfold reload. by apply ensure_loaded_consistent.
Qed.

Lemma set_loaded_same self :
  set_loaded self (_graph self) (_last_loaded_mtime self) = self.
Proof. by destruct self. Qed.

(** Without a file, [_ensure_loaded] leaves the service with an empty
    graph and no timestamp, whether it loads or finds them cached. *)
Lemma ensure_loaded_absent fs self :
  consistent self -> fs (_ttl_path self) = Absent ->
  _ensure_loaded fs self = (Ok tt, set_loaded self (Some []) None).
Proof.
  intros Hc Hfs. unfold _ensure_loaded, getmtime. rewrite Hfs.
  case_bool_decide as Hg; simpl; [|done].
  case_bool_decide as Hm; simpl; [|done].
  destruct self as [p l [g|] m]; simpl in *; [|done].
  subst m. by rewrite (Hc eq_refl g eq_refl).
Qed.

Lemma get_graph_absent fs self :
  consistent self -> fs (_ttl_path self) = Absent ->
  get_graph fs self = (Ok [], set_loaded self (Some []) None).
Proof.
  intros Hc Hfs. unfold get_graph, mbind, Method_bind.
  by rewrite ensure_loaded_absent.
Qed.

Lemma slice_nil {A} (start stop : Z) : Py.slice (@nil A) start stop = [].
Proof. unfold Py.slice. by rewrite drop_nil, take_nil. Qed.

Ltac membership H :=
  repeat (apply elem_of_cons in H as [H|H]; [subst|]); try (by apply elem_of_nil in H).

(** [serialize] once the graph is there: each alias set has its writer
    and content type, in any letter case, and what the writer raises is
    raised; any other name raises a [ValueError] whose message ends with
    the name as it was given. *)
Lemma serialize_dispatch writers fs self g self' format :
  get_graph fs self = (Ok g, self') ->
  let outcome name indent mime :=
    match writer_error writers name g with
    | None => (Ok (rdflib_serialize name indent g, mime), self')
    | Some e => (Raise e, self')
    end in
  (Py.lower format ∈ ["ttl"; "turtle"] ->
     serialize writers format fs self = outcome "turtle" None "text/turtle")
  /\ (Py.lower format ∈ ["jsonld"; "json-ld"] ->
     serialize writers format fs self = outcome "json-ld" (Some 2) "application/ld+json")
  /\ (Py.lower format ∈ ["xml"; "rdf"; "rdfxml"; "rdf/xml"] ->
     serialize writers format fs self = outcome "xml" None "application/rdf+xml")
  /\ (Py.lower format ∈ ["nt"; "ntriples"; "n-triples"] ->
     serialize writers format fs self = outcome "nt" None "application/n-triples")
  /\ (Py.lower format ∉ supported_formats ->
     serialize writers format fs self
       = (Raise (ValueError ("Unsupported format: " +:+ format)), self')
     /\ Py.contains format ("Unsupported format: " +:+ format) = true).
Proof.
  intros Hg outcome. subst outcome.
  unfold serialize, Graph_serialize, mbind, Method_bind. rewrite Hg.
  generalize (Py.lower format) as fmt. intros fmt.
  split_and!; intros H.
  - membership H; simpl; by destruct (writer_error writers "turtle" g).
  - membership H; simpl; by destruct (writer_error writers "json-ld" g).
  - membership H; simpl; by destruct (writer_error writers "xml" g).
  - membership H; simpl; by destruct (writer_error writers "nt" g).
  - split; [|apply contains_app_r].
    unfold supported_formats in H.
    repeat (rewrite bool_decide_eq_false_2;
            [|intros Hin; apply H; membership Hin; set_solver]).
    done.
Qed.


(** *** Serialisation *)

(** C3, as the code has it. Once the graph is loaded, [serialize] lowers
    the format name and calls the Turtle writer and pairs its payload
    with [text/turtle] for [ttl] and [turtle], the JSON-LD writer (indent
    2) with [application/ld+json] for [jsonld] and [json-ld], the RDF/XML
    writer with [application/rdf+xml] for [xml], [rdf], [rdfxml] and
    [rdf/xml] (with a slash: [rdf-xml] is not a supported name), the
    N-Triples writer with [application/n-triples] for [nt], [ntriples] and
    [n-triples]; when the writer raises instead of returning, [serialize]
    raises the same exception. For any other name it raises a
    [ValueError] whose message contains the name as given, and returns
    nothing. *)
Theorem C3_serialize_formats writers fs self g self' format :
  get_graph fs self = (Ok g, self') ->
  let outcome name indent mime :=
    match writer_error writers name g with
    | None => (Ok (rdflib_serialize name indent g, mime), self')
    | Some e => (Raise e, self')
    end in
  (Py.lower format ∈ ["ttl"; "turtle"] ->
     serialize writers format fs self = outcome "turtle" None "text/turtle")
  /\ (Py.lower format ∈ ["jsonld"; "json-ld"] ->
     serialize writers format fs self = outcome "json-ld" (Some 2) "application/ld+json")
  /\ (Py.lower format ∈ ["xml"; "rdf"; "rdfxml"; "rdf/xml"] ->
     serialize writers format fs self = outcome "xml" None "application/rdf+xml")
  /\ (Py.lower format ∈ ["nt"; "ntriples"; "n-triples"] ->
     serialize writers format fs self = outcome "nt" None "application/n-triples")
  /\ (Py.lower format ∉ supported_formats ->
     exists msg,
       serialize writers format fs self = (Raise (ValueError msg), self')
       /\ Py.contains format msg = true).
Proof.
  intros Hg outcome.
  destruct (serialize_dispatch writers fs self g self' format Hg) as (H1 & H2 & H3 & H4 & H5).
  split_and!; try done.
  intros H. exists ("Unsupported format: " +:+ format). by apply H5.
Qed.

(** The alias [RDF/XML], in upper case, on the loaded sample graph, which
    the RDF/XML writer accepts. *)
Lemma C3_serialize_formats_witness :
  serialize sample_writers "RDF/XML" good_file fresh_service =
  (Ok (rdflib_serialize "xml" None apple_graph, "application/rdf+xml"), loaded_service).
Proof.
  apply (C3_serialize_formats sample_writers good_file fresh_service apple_graph
           loaded_service "RDF/XML").
  - reflexivity.
  - vm_compute. set_solver.
Defined.

(** C3, where the claim fails: [rdf-xml] is refused, and [rdf/xml], which
    is none of the names the claim lists, is served. Besides, a supported
    name does not always get a payload: [serialize] loads the graph
    first, so that with a malformed file it raises the parse error, and
    the RDF/XML writer raises [ValueError] on a graph with a predicate it
    cannot split. *)
Lemma C3_rdf_dash_xml_refused :
  (serialize sample_writers "rdf-xml" no_file fresh_service).1
    = Raise (ValueError "Unsupported format: rdf-xml")
  /\ (serialize sample_writers "rdf/xml" no_file fresh_service).1
    = Ok (rdflib_serialize "xml" None [], "application/rdf+xml")
  /\ (serialize sample_writers "ttl" bad_file fresh_service).1
    = Raise (ParserError "Bad syntax")
  /\ (serialize sample_writers "xml" no_local_name_file fresh_service).1
    = Raise (ValueError "Can't split 'http://example.org/'").
Proof. repeat split; reflexivity. Qed.

(** *** Parse failures *)

(** C6, as the code has it. With a malformed file at the service's path:
    [_ensure_loaded], when it attempts a load (no snapshot, or a
    timestamp other than the recorded one), raises the parse error and
    assigns nothing, so that a snapshot loaded before remains and a
    service not yet loaded stays so; when the recorded timestamp is the
    file's it attempts no load. [reload] raises the parse error as well,
    after it has discarded the snapshot and the timestamp: the service is
    left unloaded, whatever it held. *)
Theorem C6_parse_failure fs self mtime msg :
  fs (_ttl_path self) = Present mtime (Malformed msg) ->
  (~ (_graph self <> None /\ _last_loaded_mtime self = Some mtime) ->
     _ensure_loaded fs self = (Raise (ParserError msg), self))
  /\ (_graph self <> None /\ _last_loaded_mtime self = Some mtime ->
     _ensure_loaded fs self = (Ok tt, self))
  /\ reload fs self = (Raise (ParserError msg), set_loaded self None None)
  /\ _graph (reload fs self).2 = None.
Proof.
  intros Hfs.
  assert (Hreload : reload fs self = (Raise (ParserError msg), set_loaded self None None)).
  { unfold reload, _ensure_loaded, getmtime. simpl. by rewrite Hfs. }
  split_and!; [| |done|by rewrite Hreload].
  - intros Hn. unfold _ensure_loaded, getmtime. rewrite Hfs.
    case_bool_decide as Hg; simpl; [|done].
    case_bool_decide as Hm; simpl; [|done]. by destruct Hn.
  - intros [Hg Hm]. unfold _ensure_loaded, getmtime. rewrite Hfs.
    rewrite !bool_decide_eq_true_2; done.
Qed.

(** A loaded service whose file has become malformed: [_ensure_loaded]
    raises and keeps the snapshot. *)
Lemma C6_parse_failure_witness :
  _ensure_loaded bad_file loaded_service = (Raise (ParserError "Bad syntax"), loaded_service).
Proof.
  apply (C6_parse_failure bad_file loaded_service 2 "Bad syntax").
  - reflexivity.
  - vm_compute. intros [_ H]. discriminate H.
Defined.

(** C6, where the claim fails: the service holds the sample graph, the
    file has become malformed, and after [reload] has raised the parse
    error the service holds no graph. *)
Lemma C6_reload_discards_snapshot :
  _graph loaded_service = Some apple_graph
  /\ (reload bad_file loaded_service).1 = Raise (ParserError "Bad syntax")
  /\ _graph (reload bad_file loaded_service).2 = None.
Proof. repeat split; reflexivity. Qed.

(** *** A missing file *)

(** C7. Without a file at the service's path, [_ensure_loaded] does not
    raise and leaves the service with an empty graph and no timestamp;
    [list_concepts], [search_concepts] and [get_concept_detail] then
    return the empty page with total 0, no result and not-found, and
    [serialize] returns the payload of the empty graph for every
    supported format. This holds in every state the service can be in. *)
Theorem C7_missing_file_empty_graph fs self :
  reachable self ->
  fs (_ttl_path self) = Absent ->
  let self' := set_loaded self (Some []) None in
  _ensure_loaded fs self = (Ok tt, self')
  /\ _graph self' = Some [] /\ _last_loaded_mtime self' = None
  /\ get_graph fs self = (Ok [], self')
  /\ (forall limit offset lang,
        list_concepts limit offset lang fs self = (Ok ([], 0), self'))
  /\ (forall query limit lang,
        search_concepts query limit lang fs self = (Ok [], self'))
  /\ (forall iri lang,
        get_concept_detail iri lang fs self = (Ok None, self'))
  /\ (forall writers format, Py.lower format ∈ supported_formats ->
        exists writer indent mime,
          serialize writers format fs self
            = (Ok (rdflib_serialize writer indent [], mime), self')).
Proof.
  intros Hr Hfs self'. apply reachable_consistent in Hr.
  pose proof (get_graph_absent fs self Hr Hfs) as Hg.
  split_and!; try done.
  - by apply ensure_loaded_absent.
  - intros limit offset lang. unfold list_concepts, mbind, Method_bind. rewrite Hg.
    unfold list_concepts_in.
    change (subjects [] RDF.type SKOS.Concept) with (@nil Node). by rewrite slice_nil.
  - intros query limit lang. unfold search_concepts, mbind, Method_bind. by rewrite Hg.
  - intros iri lang. unfold get_concept_detail, mbind, Method_bind. by rewrite Hg.
  - intros writers format H.
    destruct (serialize_dispatch writers fs self [] self' format Hg) as (H1 & H2 & H3 & H4 & _).
    rewrite !writer_error_empty in H1, H2, H3, H4.
    unfold supported_formats in H.
    repeat (apply elem_of_cons in H as [H|H]);
      try (by apply elem_of_nil in H);
      [ rewrite H1 | rewrite H1 | rewrite H2 | rewrite H2
      | rewrite H3 | rewrite H3 | rewrite H3 | rewrite H3
      | rewrite H4 | rewrite H4 | rewrite H4 ];
      try (rewrite H; set_solver); eauto.
Qed.

(** The service as constructed, with no file. *)
Lemma C7_missing_file_empty_graph_witness :
  list_concepts 100 0 None no_file fresh_service
  = (Ok ([], 0), set_loaded fresh_service (Some []) None).
Proof.
  pose proof (C7_missing_file_empty_graph no_file fresh_service
                (reachable_init _ _) eq_refl) as H.
  apply H.
Defined.

(** ** Listing *)

(** For indices within the non-negative range, the slice is the usual
    sub-sequence. *)
Lemma slice_take_drop {A} (l : list A) (offset limit : Z) :
  0 <= offset -> 0 <= limit ->
  Py.slice l offset (offset + limit) = take (Z.to_nat limit) (drop (Z.to_nat offset) l).
Proof.
  intros Ho Hl. unfold Py.slice, Py.slice_index.
  destruct (Z.ltb_spec offset 0) as [?|_]; [lia|].
  destruct (Z.ltb_spec (offset + limit) 0) as [?|_]; [lia|].
  destruct (Z.le_gt_cases (Z.of_nat (length l)) offset) as [Hge|Hlt].
  - rewrite !(drop_ge l) by lia. by rewrite !take_nil.
  - rewrite (Z.min_l offset) by lia.
    destruct (Z.le_gt_cases (offset + limit) (Z.of_nat (length l))) as [Hin|Hout].
    + rewrite Z.min_l by lia. f_equal. lia.
    + rewrite Z.min_r by lia.
      rewrite !take_ge; [done| |]; rewrite length_drop; lia.
Qed.

(** A graph without repeated triple enumerates a subject once. *)
Lemma subjects_NoDup (g : Graph) (p o : Node) : NoDup g -> NoDup (subjects g p o).
Proof.
  intros Hg. unfold subjects. apply NoDup_fmap_2_strong; [|by apply NoDup_filter].
  intros [[s1 p1] o1] [[s2 p2] o2] H1 H2 Hs.
  apply list_elem_of_filter in H1 as [[? ?] _].
  apply list_elem_of_filter in H2 as [[? ?] _].
  unfold subject_of, predicate_of, object_of in *. simpl in *. congruence.
Qed.





(** ** Searching *)

(** The inner loop finds the first label that counts. *)
Lemma match_label_Some labels lang lower_q text :
  match_label labels lang lower_q = Some text <->
  exists before lit after,
    labels = before ++ Lit lit :: after
    /\ Forall (fun n => label_matches lang lower_q n = false) before
    /\ label_matches lang lower_q (Lit lit) = true
    /\ text = lexical lit.
Proof.
  split.
  - induction labels as [|n rest IH]; [done|]. intros H.
    assert (Hskip : match_label rest lang lower_q = Some text ->
                    label_matches lang lower_q n = false ->
                    exists before lit after,
                      n :: rest = before ++ Lit lit :: after
                      /\ Forall (fun n => label_matches lang lower_q n = false) before
                      /\ label_matches lang lower_q (Lit lit) = true
                      /\ text = lexical lit).
    { intros Hrest Hn. destruct (IH Hrest) as (before & lit & after & -> & Hb & Hl & ->).
      exists (n :: before), lit, after. split_and!; try done. by constructor. }
    destruct n as [s|s|l]; simpl in H; try (by apply Hskip).
    destruct (bool_decide (language l = None) || bool_decide (language l = Some lang)) eqn:El.
    + destruct (Py.contains lower_q (Py.lower (lexical l))) eqn:Ec.
      * injection H as <-. exists [], l, rest. split_and!; try done.
        simpl. by rewrite El, Ec.
      * apply Hskip; [done|]. simpl. by rewrite El, Ec.
    + apply Hskip; [done|]. simpl. by rewrite El.
  - intros (before & lit & after & -> & Hb & Hl & ->).
    induction Hb as [|n before Hn _ IH]; simpl in *.
    + apply andb_true_iff in Hl as [-> ->]. done.
    + destruct n as [s|s|l]; try done. simpl in Hn.
      destruct (bool_decide (language l = None) || bool_decide (language l = Some lang)); [|done].
      simpl in Hn. by rewrite Hn.
Qed.

(** The inner loop finds nothing exactly when no label counts. *)
Lemma match_label_None labels lang lower_q :
  match_label labels lang lower_q = None <->
  Forall (fun n => label_matches lang lower_q n = false) labels.
Proof.
  induction labels as [|n rest IH]; simpl; [done|].
  rewrite Forall_cons. destruct n as [s|s|l]; simpl; try (rewrite IH; tauto).
  destruct (bool_decide (language l = None) || bool_decide (language l = Some lang)); simpl.
  - destruct (Py.contains lower_q (Py.lower (lexical l))); [|rewrite IH; tauto].
    split; [done|]. by intros [? _].
  - rewrite IH; tauto.
Qed.

(** From fewer results than a limit, the outer loop never returns more
    results than the limit. *)
Lemma search_loop_length g lang lower_q limit todo results :
  Z.of_nat (length results) < limit ->
  Z.of_nat (length (search_loop g lang lower_q limit todo results)) <= limit.
Proof.
  revert results.
  induction todo as [|subject rest IH]; intros results Hlen; cbn [search_loop]; [lia|].
  destruct (match_label _ lang lower_q) as [text|].
  - destruct (Z.geb_spec (Z.of_nat (length (results ++ [hit g lang subject text]))) limit)
      as [Hge|Hlt].
    + rewrite length_app in *. cbn [length] in *. lia.
    + by apply IH.
  - destruct (Z.geb_spec (Z.of_nat (length results)) limit); [lia|]. by apply IH.
Qed.

(** The outer loop only adds hits for subjects it visits. *)
Lemma search_loop_hits g lang lower_q limit todo results (P : ConceptSummary -> Prop) :
  (forall subject text,
     subject ∈ todo ->
     match_label (search_labels g subject) lang lower_q = Some text ->
     P (hit g lang subject text)) ->
  Forall P results ->
  Forall P (search_loop g lang lower_q limit todo results).
Proof.
  revert results. induction todo as [|subject rest IH]; intros results Hhit Hres; simpl; [done|].
  assert (Hrest : forall s text, s ∈ rest ->
            match_label (search_labels g s) lang lower_q = Some text -> P (hit g lang s text)).
  { intros s text Hs. apply Hhit. by right. }
  destruct (match_label (search_labels g subject) lang lower_q) as [text|] eqn:Em.
  - assert (Hres' : Forall P (results ++ [hit g lang subject text])).
    { apply Forall_app. split; [done|]. constructor; [|done]. apply Hhit; [by left|done]. }
    destruct (_ >=? _); [done|]. by apply IH.
  - destruct (_ >=? _); [done|]. by apply IH.
Qed.

(** With a limit that the subjects to visit cannot exceed, the outer
    loop returns a hit for every subject that has a matching label, in
    the order of the enumeration. *)
Lemma search_loop_all g lang lower_q limit todo results :
  Z.of_nat (length results + length todo) <= limit ->
  search_loop g lang lower_q limit todo results
  = results ++ omap (fun subject =>
                       hit g lang subject <$> match_label (search_labels g subject) lang lower_q)
                    todo.
Proof.
  revert results. induction todo as [|subject rest IH]; intros results Hlen; simpl.
  - by rewrite app_nil_r.
  - destruct (match_label (search_labels g subject) lang lower_q) as [text|] eqn:Em; simpl.
    + destruct (Z.geb_spec (Z.of_nat (length (results ++ [hit g lang subject text]))) limit)
        as [Hge|Hlt].
      * rewrite length_app in Hge. simpl in *.
        destruct rest; [done|simpl in *; lia].
      * rewrite IH; [by rewrite <- app_assoc|].
        rewrite length_app. simpl in *. lia.
    + destruct (Z.geb_spec (Z.of_nat (length results)) limit) as [Hge|Hlt].
      * simpl in *. lia.
      * apply IH. simpl in *. lia.
Qed.

(** For a limit of at least 1, [search_concepts] returns at most [limit]
    results. *)
Lemma search_concepts_at_most_limit g default_language query limit lang :
  1 <= limit ->
  Z.of_nat (length (search_concepts_in g default_language query limit lang)) <= limit.
Proof. intros H. apply search_loop_length. simpl. lia. Qed.

(** X14. Every result of [search_concepts] is for a concept of the graph that
    has a prefLabel or altLabel literal with no language or the requested
    one whose lowered text contains the lowered query. *)
Lemma search_concepts_sound g default_language query limit lang :
  let lang' := Py.str_or_default lang default_language in
  Forall
    (fun r => exists subject lit,
       subject ∈ subjects g RDF.type SKOS.Concept
       /\ iri r = str subject
       /\ Lit lit ∈ search_labels g subject
       /\ (language lit = None \/ language lit = Some lang')
       /\ Py.contains (Py.lower query) (Py.lower (lexical lit)) = true)
    (search_concepts_in g default_language query limit lang).
Proof.
  intros lang'. apply search_loop_hits; [|done].
  intros subject text Hs Hm.
  apply match_label_Some in Hm as (before & lit & after & Hl & _ & Hlit & _).
  exists subject, lit. split_and!; try done.
  - rewrite Hl. apply elem_of_app. right. by left.
  - simpl in Hlit. apply andb_true_iff in Hlit as [Hlang _].
    apply orb_true_iff in Hlang as [H|H]; apply bool_decide_eq_true in H; tauto.
  - simpl in Hlit. by apply andb_true_iff in Hlit as [_ ?].
Qed.

(** X15. With the empty query and a limit the concepts cannot exceed,
    [search_concepts] returns a result for every concept that has a
    prefLabel or altLabel literal with no language or the requested one. *)
Lemma search_concepts_empty_query g default_language limit lang subject lit :
  let lang' := Py.str_or_default lang default_language in
  Z.of_nat (length (subjects g RDF.type SKOS.Concept)) <= limit ->
  subject ∈ subjects g RDF.type SKOS.Concept ->
  Lit lit ∈ search_labels g subject ->
  language lit = None \/ language lit = Some lang' ->
  exists r, r ∈ search_concepts_in g default_language "" limit lang /\ iri r = str subject.
Proof.
  intros lang' Hlimit Hs Hlit Hlang.
  unfold search_concepts_in. rewrite search_loop_all by (simpl; lia). simpl.
  destruct (match_label (search_labels g subject) lang' "") as [text|] eqn:Em.
  - exists (hit g lang' subject text). split; [|done].
    apply list_elem_of_omap. exists subject. split; [done|]. fold lang'. by rewrite Em.
  - apply match_label_None in Em. rewrite Forall_forall in Em.
    specialize (Em _ Hlit). simpl in Em. rewrite contains_empty in Em.
    rewrite andb_true_r in Em. apply orb_false_iff in Em as [H1 H2].
    apply bool_decide_eq_false in H1, H2. tauto.
Qed.

(** C4. [search_concepts] is to return at most [limit] results. On the
    sample graph, whose one concept has the label ["Apple"@en], the query
    ["apple"] with limit 0 returns one result: the loop tests the limit
    only after it has appended a result. *)
Theorem C4_limit_zero_returns_one :
  search_concepts_in apple_graph "en" "apple" 0 None
  = [ {| iri := "http://example.org/apple"; pref_label := Some "Apple"; definition := None |} ]
  /\ (search_concepts "apple" 0 None good_file fresh_service).1
     = Ok [ {| iri := "http://example.org/apple"; pref_label := Some "Apple";
               definition := None |} ].
Proof. split; reflexivity. Qed.

(** ** Summaries *)

Lemma elem_of_slice {A} (l : list A) (start stop : Z) (x : A) :
  x ∈ Py.slice l start stop -> x ∈ l.
Proof.
  unfold Py.slice. intros H.
  eapply subseteq_drop, subseteq_take, H.
Qed.

(** C5, as the code has it. A summary of [list_concepts] is for a concept
    of the graph and carries the selector's choice among the concept's
    prefLabels as [pref_label] and among its definitions as [definition].
    A summary of [search_concepts] is for a concept of the graph and
    carries the selector's choice among its definitions as [definition],
    and as [pref_label] the text of the label that matched the query: the
    first of the concept's prefLabels and altLabels, in this order, that
    is a literal with no language or the requested one and whose lowered
    text contains the lowered query. *)
Theorem C5_summary_fields g default_language query limit offset lang :
  let lang' := Py.str_or_default lang default_language in
  Forall
    (fun r => exists subject,
       subject ∈ subjects g RDF.type SKOS.Concept
       /\ iri r = str subject
       /\ pref_label r = str <$> _select_lang_literal (objects g subject SKOS.prefLabel) lang'
       /\ definition r = str <$> _select_lang_literal (objects g subject SKOS.definition) lang')
    (list_concepts_in g default_language limit offset lang).1
  /\ Forall
    (fun r => exists subject before lit after,
       subject ∈ subjects g RDF.type SKOS.Concept
       /\ iri r = str subject
       /\ definition r = str <$> _select_lang_literal (objects g subject SKOS.definition) lang'
       /\ objects g subject SKOS.prefLabel ++ objects g subject SKOS.altLabel
          = before ++ Lit lit :: after
       /\ Forall (fun n => label_matches lang' (Py.lower query) n = false) before
       /\ label_matches lang' (Py.lower query) (Lit lit) = true
       /\ pref_label r = Some (lexical lit))
    (search_concepts_in g default_language query limit lang).
Proof.
  intros lang'. split.
  - unfold list_concepts_in. simpl. apply Forall_fmap, Forall_forall.
    intros subject Hs. apply elem_of_slice in Hs. by exists subject.
  - apply search_loop_hits; [|done].
    intros subject text Hs Hm.
    apply match_label_Some in Hm as (before & lit & after & Hl & Hb & Hlit & ->).
    by exists subject, before, lit, after.
Qed.

(** C5, where the claim fails: the query ["pom"] on the sample graph
    matches the altLabel ["Pomme"@en], which becomes the summary's
    [pref_label], while the selector's choice among the prefLabels is
    ["Apple"]. *)
Lemma C5_search_pref_label_is_matched_label :
  search_concepts_in apple_graph "en" "pom" 50 None
  = [ {| iri := "http://example.org/apple"; pref_label := Some "Pomme"; definition := None |} ]
  /\ str <$> _select_lang_literal (objects apple_graph apple SKOS.prefLabel) "en"
     = Some "Apple".
Proof. split; reflexivity. Qed.

(** ** The import tool *)

Lemma elem_of_add g t t' : t' ∈ add g t <-> t' ∈ g \/ t' = t.
Proof.
  unfold add. case_decide as Hin.
  - split; [tauto|]. intros [?| ->]; done.
  - rewrite elem_of_app, list_elem_of_singleton. tauto.
Qed.

Lemma NoDup_add g t : NoDup g -> NoDup (add g t).
Proof.
  intros Hg. unfold add. case_decide as Hin; [done|].
  apply NoDup_app. split_and!; [done| |apply NoDup_singleton].
  intros x Hx Hx'. apply list_elem_of_singleton in Hx'. by subst.
Qed.

(** Adding triples keeps the graph's enumeration and puts the new ones
    after it. *)
Lemma add_all_app ts g :
  exists extra, fold_left add ts g = g ++ extra /\ forall t, t ∈ extra -> t ∈ ts.
Proof.
  revert g. induction ts as [|t ts IH]; intros g; simpl.
  - exists []. split; [by rewrite app_nil_r|]. intros t H. by apply elem_of_nil in H.
  - destruct (IH (add g t)) as (extra & -> & Hextra). unfold add. case_decide.
    + exists extra. split; [done|]. intros t' Ht'. right. by apply Hextra.
    + exists (t :: extra). split; [by rewrite <- app_assoc|].
      intros t' Ht'. apply elem_of_cons in Ht' as [->|Ht']; [by left|].
      right. by apply Hextra.
Qed.

Lemma elem_of_add_all ts g t : t ∈ fold_left add ts g <-> t ∈ g \/ t ∈ ts.
Proof.
  revert g. induction ts as [|t' ts IH]; intros g; simpl.
  - split; [tauto|]. intros [?|H]; [done|by apply elem_of_nil in H].
  - rewrite IH, elem_of_add, elem_of_cons. tauto.
Qed.

Lemma NoDup_add_all ts g : NoDup g -> NoDup (fold_left add ts g).
Proof.
  revert g. induction ts as [|t ts IH]; intros g Hg; simpl; [done|].
  by apply IH, NoDup_add.
Qed.

Lemma fold_left_add_fmap {A} (f : A -> Triple) (l : list A) (g : Graph) :
  fold_left (fun g a => add g (f a)) l g = fold_left add (f <$> l) g.
Proof. revert g. induction l as [|a l IH]; intros g; simpl; [done|]. apply IH. Qed.

Lemma alt_items_empty : alt_items EmptyString = [].
Proof. reflexivity. Qed.

(** The loop body skips a row without label and adds the triples of a
    row with one. *)
Lemma import_row_triples base_iri lang g row :
  import_row base_iri lang g row
  = if bool_decide (row_label row = EmptyString) then g
    else fold_left add (row_triples base_iri lang row) g.
Proof.
  unfold import_row, row_triples. case_bool_decide as Hl; [done|].
  rewrite !fold_left_app, <- fold_left_add_fmap. cbn [fold_left].
  case_bool_decide as Ha; [rewrite Ha, alt_items_empty|]; by case_bool_decide.
Qed.

(** The whole loop keeps what was there and adds the triples of the rows
    it does not skip. *)
Lemma elem_of_import_rows base_iri lang rows g t :
  t ∈ fold_left (import_row base_iri lang) rows g <->
  t ∈ g \/ exists row, row ∈ rows /\ valid_row row /\ t ∈ row_triples base_iri lang row.
Proof.
  revert g. induction rows as [|row rows IH]; intros g; simpl.
  - split; [tauto|]. intros [?|(row & H & _)]; [done|by apply elem_of_nil in H].
  - rewrite IH, import_row_triples. unfold valid_row. case_bool_decide as Hl.
    + split.
      * intros [?|(r & Hr & Hv & Ht)]; [by left|]. right. exists r. split_and!; try done.
        by right.
      * intros [?|(r & Hr & Hv & Ht)]; [by left|].
        apply elem_of_cons in Hr as [->|Hr]; [done|]. right. by exists r.
    + rewrite elem_of_add_all. split.
      * intros [[?|Ht]|(r & Hr & Hv & Ht)]; [by left| |].
        -- right. exists row. split_and!; try done. by left.
        -- right. exists r. split_and!; try done. by right.
      * intros [?|(r & Hr & Hv & Ht)]; [by left; left|].
        apply elem_of_cons in Hr as [->|Hr]; [by left; right|]. right. by exists r.
Qed.

Lemma NoDup_import_rows base_iri lang rows g :
  NoDup g -> NoDup (fold_left (import_row base_iri lang) rows g).
Proof.
  revert g. induction rows as [|row rows IH]; intros g Hg; simpl; [done|].
  apply IH. rewrite import_row_triples. case_bool_decide; [done|]. by apply NoDup_add_all.
Qed.

(** The loop keeps the enumeration it starts from and puts what it adds
    after it. *)
Lemma import_rows_app base_iri lang rows g :
  exists extra,
    fold_left (import_row base_iri lang) rows g = g ++ extra
    /\ forall t, t ∈ extra ->
         exists row, row ∈ rows /\ valid_row row /\ t ∈ row_triples base_iri lang row.
Proof.
  revert g. induction rows as [|row rows IH]; intros g; simpl.
  - exists []. split; [by rewrite app_nil_r|]. intros t H. by apply elem_of_nil in H.
  - destruct (IH (import_row base_iri lang g row)) as (extra & -> & Hextra).
    rewrite import_row_triples. unfold valid_row. case_bool_decide as Hl.
    + exists extra. split; [done|]. intros t Ht.
      destruct (Hextra t Ht) as (r & Hr & Hv & Hin). exists r. split_and!; try done. by right.
    + destruct (add_all_app (row_triples base_iri lang row) g) as (extra0 & -> & Hextra0).
      exists (extra0 ++ extra). split; [by rewrite <- app_assoc|].
      intros t Ht. apply elem_of_app in Ht as [Ht|Ht].
      * exists row. split_and!; [by left|done|by apply Hextra0].
      * destruct (Hextra t Ht) as (r & Hr & Hv & Hin). exists r. split_and!; try done.
        by right.
Qed.

(** What a row's triples are. *)
Lemma elem_of_row_triples base_iri lang row t :
  t ∈ row_triples base_iri lang row <->
  let iri := row_iri base_iri row in
  t = (iri, RDF.type, SKOS.Concept)
  \/ t = (iri, SKOS.inScheme, scheme_of base_iri)
  \/ t = (iri, SKOS.prefLabel, Lit (Literal_ (row_label row) (Some lang)))
  \/ (row_definition row <> EmptyString
      /\ t = (iri, SKOS.definition, Lit (Literal_ (row_definition row) (Some lang))))
  \/ (exists segment,
        segment ∈ Py.split "|" (row_alt row)
        /\ Py.strip segment <> EmptyString
        /\ t = (iri, SKOS.altLabel, Lit (Literal_ (Py.strip segment) (Some lang)))).
Proof.
  unfold row_triples, alt_items. simpl.
  rewrite !elem_of_cons, elem_of_app, list_elem_of_fmap.
  assert (Hdef :
    t ∈ (if bool_decide (row_definition row = EmptyString) then []
         else [ (row_iri base_iri row, SKOS.definition,
                 Lit (Literal_ (row_definition row) (Some lang))) ])
    <-> row_definition row <> EmptyString
        /\ t = (row_iri base_iri row, SKOS.definition,
                Lit (Literal_ (row_definition row) (Some lang)))).
  { case_bool_decide as Hd.
    - split; [intros H; by apply elem_of_nil in H|tauto].
    - rewrite list_elem_of_singleton. tauto. }
  assert (Halt :
    (exists a, t = (row_iri base_iri row, SKOS.altLabel, Lit (Literal_ a (Some lang)))
               /\ a ∈ filter (fun a => a <> EmptyString) (Py.strip <$> Py.split "|" (row_alt row)))
    <-> exists segment,
          segment ∈ Py.split "|" (row_alt row)
          /\ Py.strip segment <> EmptyString
          /\ t = (row_iri base_iri row, SKOS.altLabel,
                  Lit (Literal_ (Py.strip segment) (Some lang)))).
  { split.
    - intros (a & -> & Ha). apply list_elem_of_filter in Ha as [Hne Ha].
      apply list_elem_of_fmap in Ha as (segment & -> & Hs). by exists segment.
    - intros (segment & Hs & Hne & ->). exists (Py.strip segment). split; [done|].
      apply list_elem_of_filter. split; [done|]. apply list_elem_of_fmap. by exists segment. }
  rewrite Hdef, Halt. tauto.
Qed.

Lemma filter_none {A} (P : A -> Prop) `{forall x, Decision (P x)} (l : list A) :
  (forall x, x ∈ l -> ~ P x) -> filter P l = [].
Proof.
  induction l as [|x l IH]; intros Hl; [done|].
  rewrite filter_cons_False by (apply Hl; by left).
  apply IH. intros y Hy. apply Hl. by right.
Qed.

(** The tool starts from the two triples of the scheme. *)
Lemma scheme_graph base_iri lang :
  add (add [] (scheme_of base_iri, RDF.type, SKOS.ConceptScheme))
      (scheme_of base_iri, DCTERMS.title,
       Lit (Literal_ "Montessori Glossary Vocabulary" (Some lang)))
  = scheme_triples base_iri lang.
Proof.
  unfold add at 2. simpl. unfold add. case_decide as Hin; [|done].
  apply list_elem_of_singleton in Hin. discriminate Hin.
Qed.

Lemma import_csv_graph rows base_iri lang :
  (import_csv_to_skos rows base_iri lang).1
  = fold_left (import_row base_iri lang) rows (scheme_triples base_iri lang).
Proof. unfold import_csv_to_skos. simpl. by rewrite scheme_graph. Qed.

Lemma NoDup_scheme_triples base_iri lang : NoDup (scheme_triples base_iri lang).
Proof.
  unfold scheme_triples. apply NoDup_cons. split; [|apply NoDup_singleton].
  intros Hin. apply list_elem_of_singleton in Hin. discriminate Hin.
Qed.

(** No triple of a row types its subject as a concept scheme. *)
Lemma row_triples_no_scheme base_iri lang row t :
  t ∈ row_triples base_iri lang row ->
  ~ (predicate_of t = RDF.type /\ object_of t = SKOS.ConceptScheme).
Proof.
  intros Ht [Hp Ho]. apply elem_of_row_triples in Ht. simpl in Ht.
  destruct Ht as [->|[->|[->|[[_ ->]|(segment & _ & _ & ->)]]]]; discriminate.
Qed.

(** The triple of a row that types a concept is the one for its IRI. *)
Lemma row_triples_concept base_iri lang row s :
  (s, RDF.type, SKOS.Concept) ∈ row_triples base_iri lang row <-> s = row_iri base_iri row.
Proof.
  rewrite elem_of_row_triples. simpl. split.
  - intros [H|[H|[H|[[_ H]|(segment & _ & _ & H)]]]]; try discriminate H. by injection H.
  - intros ->. by left.
Qed.

(** The cells the loop body reads. *)
Lemma row_label_cells row :
  row_label row = Py.strip (first_cell row ["prefLabel"; "label"; "term"]).
Proof.
  unfold row_label. f_equal. cbn [first_cell].
  by destruct (row !! "prefLabel") as [[|]|], (row !! "label") as [[|]|],
              (row !! "term") as [[|]|].
Qed.

Lemma row_definition_cells row :
  row_definition row = Py.strip (first_cell row ["definition"; "desc"]).
Proof.
  unfold row_definition. f_equal. cbn [first_cell].
  by destruct (row !! "definition") as [[|]|], (row !! "desc") as [[|]|].
Qed.

Lemma row_alt_cells row :
  row_alt row = Py.strip (first_cell row ["altLabel"; "alt"]).
Proof.
  unfold row_alt. f_equal. cbn [first_cell].
  by destruct (row !! "altLabel") as [[|]|], (row !! "alt") as [[|]|].
Qed.

Lemma row_slug_cells row :
  row_slug row
  = if bool_decide (first_cell row ["id"] = EmptyString)
    then Py.quote (Py.replace " " "-" (Py.lower (row_label row)))
    else first_cell row ["id"].
Proof.
  unfold row_slug, slugify. rewrite (row_label_cells row), strip_idemp. cbn [first_cell].
  by destruct (row !! "id") as [[|]|].
Qed.

(** C9, as the code has it. Writing [base] for the base IRI without its
    trailing slashes and [scheme] for [base/scheme]; the label of a row
    is its cell under the first of the columns [prefLabel], [label] and
    [term] that has one other than the empty string, trimmed; its
    definition is the cell under the first such of [definition] and
    [desc], trimmed; its aliases are in the cell under the first such of
    [altLabel] and [alt], trimmed; its slug is its [id] cell when that is
    not the empty string, and else its label in lower case with a hyphen
    for every space, percent-encoded.
    - A row whose label is empty is skipped and changes nothing: so is a
      row with a blank [prefLabel] cell, whatever its [label] and [term]
      cells hold.
    - A row whose label is not empty adds to the graph, a set of triples,
      exactly these: its concept IRI [base/concept/slug] typed
      [skos:Concept]; the [inScheme] link to [scheme]; the label as
      prefLabel; the definition when it is not empty; and, for each piece
      of the aliases between pipes that is not empty after trimming, the
      trimmed piece as altLabel, equal pieces giving one triple.
    - The graph the tool writes has no repeated triple, types [scheme]
      alone as concept scheme, and holds the two triples of the scheme
      and what each row adds, and nothing else. *)
Theorem C9_import_rows (base_iri lang : string) :
  let base := Py.rstrip_slash base_iri in
  let scheme := URIRef (base +:+ "/scheme") in
  (forall g row,
     let label := Py.strip (first_cell row ["prefLabel"; "label"; "term"]) in
     let definition := Py.strip (first_cell row ["definition"; "desc"]) in
     let alt := Py.strip (first_cell row ["altLabel"; "alt"]) in
     let id := first_cell row ["id"] in
     let slug :=
       if bool_decide (id = EmptyString)
       then Py.quote (Py.replace " " "-" (Py.lower label))
       else id in
     let iri := URIRef (base +:+ "/concept/" +:+ slug) in
     (label = EmptyString -> import_row base_iri lang g row = g)
     /\ (label <> EmptyString ->
         forall t,
           t ∈ import_row base_iri lang g row <->
           t ∈ g
           \/ t = (iri, RDF.type, SKOS.Concept)
           \/ t = (iri, SKOS.inScheme, scheme)
           \/ t = (iri, SKOS.prefLabel, Lit (Literal_ label (Some lang)))
           \/ (definition <> EmptyString
               /\ t = (iri, SKOS.definition, Lit (Literal_ definition (Some lang))))
           \/ (exists segment,
                 segment ∈ Py.split "|" alt
                 /\ Py.strip segment <> EmptyString
                 /\ t = (iri, SKOS.altLabel, Lit (Literal_ (Py.strip segment) (Some lang))))))
  /\ (forall rows,
        let g := (import_csv_to_skos rows base_iri lang).1 in
        NoDup g
        /\ subjects g RDF.type SKOS.ConceptScheme = [scheme]
        /\ forall t,
             t ∈ g <->
             t = (scheme, RDF.type, SKOS.ConceptScheme)
             \/ t = (scheme, DCTERMS.title,
                     Lit (Literal_ "Montessori Glossary Vocabulary" (Some lang)))
             \/ exists row, row ∈ rows /\ t ∈ import_row base_iri lang [] row).
Proof.
  intros base scheme. split.
  - intros g row label definition alt id slug iri.
    rewrite import_row_triples, (row_label_cells row). fold label. split.
    + intros Hl. by rewrite bool_decide_eq_true_2.
    + intros Hl t. rewrite bool_decide_eq_false_2 by done.
      rewrite elem_of_add_all, elem_of_row_triples. cbn zeta.
      unfold row_iri. rewrite (row_slug_cells row), (row_label_cells row),
        (row_definition_cells row), (row_alt_cells row).
      done.
  - intros rows g. unfold g. rewrite import_csv_graph. split_and!.
    + apply NoDup_import_rows, NoDup_scheme_triples.
    + destruct (import_rows_app base_iri lang rows (scheme_triples base_iri lang))
        as (extra & -> & Hextra).
      unfold subjects, Graph. rewrite filter_app, fmap_app.
      rewrite (filter_none _ extra); [done|].
      intros t Ht. destruct (Hextra t Ht) as (row & _ & _ & Hin).
      by apply row_triples_no_scheme in Hin.
    + intros t. rewrite elem_of_import_rows. unfold scheme_triples.
      rewrite !elem_of_cons, elem_of_nil.
      assert (Hrows :
        (exists row, row ∈ rows /\ valid_row row /\ t ∈ row_triples base_iri lang row)
        <-> exists row, row ∈ rows /\ t ∈ import_row base_iri lang [] row).
      { split.
        - intros (row & Hrow & Hv & Ht). exists row. split; [done|].
          rewrite import_row_triples, bool_decide_eq_false_2 by done.
          apply elem_of_add_all. by right.
        - intros (row & Hrow & Ht). rewrite import_row_triples in Ht.
          case_bool_decide as Hl; [by apply elem_of_nil in Ht|].
          apply elem_of_add_all in Ht as [Ht|Ht]; [by apply elem_of_nil in Ht|].
          by exists row. }
      rewrite Hrows. unfold scheme_of. fold base. fold scheme. tauto.
Qed.

(** The row of the scenario gets its definition and its two altLabels
    under the slug of its label; the row with the other column names gets
    its trimmed cells under its [id]. *)
Lemma C9_import_rows_witness :
  ((URIRef "https://example.org/concept/sensorial-materials", SKOS.definition,
    Lit (Literal_ "Materials engaging the senses" (Some "en")))
   ∈ import_row "https://example.org/" "en" [] sensorial_row
   /\ (URIRef "https://example.org/concept/sensorial-materials", SKOS.altLabel,
       Lit (Literal_ "Sensorial Tools" (Some "en")))
      ∈ import_row "https://example.org/" "en" [] sensorial_row)
  /\ ((URIRef "https://example.org/concept/sl-1", SKOS.prefLabel,
       Lit (Literal_ "Sandpaper Letters" (Some "en")))
      ∈ import_row "https://example.org/" "en" [] alias_row
      /\ (URIRef "https://example.org/concept/sl-1", SKOS.definition,
          Lit (Literal_ "Letters cut from sandpaper" (Some "en")))
         ∈ import_row "https://example.org/" "en" [] alias_row
      /\ (URIRef "https://example.org/concept/sl-1", SKOS.altLabel,
          Lit (Literal_ "Tactile letters" (Some "en")))
         ∈ import_row "https://example.org/" "en" [] alias_row).
Proof.
  pose proof (C9_import_rows "https://example.org/" "en") as [Hrow _].
  split.
  - destruct (Hrow [] sensorial_row) as [_ Hadds].
    assert (Hlabel : Py.strip (first_cell sensorial_row ["prefLabel"; "label"; "term"])
                     <> EmptyString) by (by vm_compute).
    split; apply (Hadds Hlabel).
    + do 4 right. left. split; [by vm_compute|reflexivity].
    + do 5 right. exists "Sensorial Tools". split_and!.
      * vm_compute. apply elem_of_cons. right. apply elem_of_cons. by left.
      * by vm_compute.
      * reflexivity.
  - destruct (Hrow [] alias_row) as [_ Hadds].
    assert (Hlabel : Py.strip (first_cell alias_row ["prefLabel"; "label"; "term"])
                     <> EmptyString) by (by vm_compute).
    split_and!; apply (Hadds Hlabel).
    + do 3 right. left. reflexivity.
    + do 4 right. left. split; [by vm_compute|reflexivity].
    + do 5 right. exists "Tactile letters ". split_and!.
      * vm_compute. apply elem_of_cons. by left.
      * by vm_compute.
      * reflexivity.
Defined.

(** C9, where the claim fails. The definition cell [" "] is not empty and
    the row gets no definition; the altLabel cell has three non-empty
    pieces between pipes and the row gets one altLabel; and with the base
    IRI [https://example.org/] the concept is
    [https://example.org/concept/apple], the slash at the end of the base
    dropped. Besides, a row whose [label] cell holds a label is skipped
    when its [prefLabel] cell is blank: the tool writes the scheme
    alone. *)
Lemma C9_blank_cells_dropped :
  blank_cells_row !! "definition" = Some " "
  /\ Py.split "|" "Fruit| |Fruit" = ["Fruit"; " "; "Fruit"]
  /\ (import_csv_to_skos [blank_cells_row] "https://example.org/" "en").1
     = [ (URIRef "https://example.org/scheme", RDF.type, SKOS.ConceptScheme);
         (URIRef "https://example.org/scheme", DCTERMS.title,
          Lit (Literal_ "Montessori Glossary Vocabulary" (Some "en")));
         (URIRef "https://example.org/concept/apple", RDF.type, SKOS.Concept);
         (URIRef "https://example.org/concept/apple", SKOS.inScheme,
          URIRef "https://example.org/scheme");
         (URIRef "https://example.org/concept/apple", SKOS.prefLabel,
          Lit (Literal_ "Apple" (Some "en")));
         (URIRef "https://example.org/concept/apple", SKOS.altLabel,
          Lit (Literal_ "Fruit" (Some "en"))) ]
  /\ hidden_label_row !! "label" = Some "Apple"
  /\ (import_csv_to_skos [hidden_label_row] "https://example.org/" "en").1
     = [ (URIRef "https://example.org/scheme", RDF.type, SKOS.ConceptScheme);
         (URIRef "https://example.org/scheme", DCTERMS.title,
          Lit (Literal_ "Montessori Glossary Vocabulary" (Some "en"))) ].
Proof. split_and!; by vm_compute. Qed.

(** ** Rows with the same slug *)

Lemma elem_of_subjects (g : Graph) (p o s : Node) :
  s ∈ subjects g p o <-> (s, p, o) ∈ g.
Proof.
  unfold subjects. rewrite list_elem_of_fmap. split.
  - intros ([[s' p'] o'] & -> & Ht). apply list_elem_of_filter in Ht as [[Hp Ho] Ht].
    unfold predicate_of, object_of in *. simpl in *. by subst.
  - intros Ht. exists (s, p, o). split; [done|]. by apply list_elem_of_filter.
Qed.

Lemma row_triples_subject base_iri lang row t :
  t ∈ row_triples base_iri lang row -> subject_of t = row_iri base_iri row.
Proof.
  intros Ht. apply elem_of_row_triples in Ht. simpl in Ht.
  by destruct Ht as [->|[->|[->|[[_ ->]|(segment & _ & _ & ->)]]]].
Qed.

(** The concepts of the graph the tool writes are the IRIs of the rows
    with a label. *)
Lemma import_csv_concepts rows base_iri lang s :
  s ∈ subjects (import_csv_to_skos rows base_iri lang).1 RDF.type SKOS.Concept
  <-> s ∈ row_iri base_iri <$> filter valid_row rows.
Proof.
  rewrite elem_of_subjects, import_csv_graph, elem_of_import_rows, list_elem_of_fmap.
  split.
  - intros [Hs|(row & Hrow & Hv & Ht)].
    + unfold scheme_triples in Hs. membership Hs; discriminate.
    + apply row_triples_concept in Ht. exists row. split; [done|].
      by apply list_elem_of_filter.
  - intros (row & -> & Hrow). apply list_elem_of_filter in Hrow as [Hv Hrow].
    right. exists row. split_and!; try done. by apply row_triples_concept.
Qed.

(** C10. Rows with the same slug have the same concept IRI; when both
    have a label, the graph the tool writes holds the triples of both, all
    with that IRI as subject, so that their labels, definitions and
    altLabels are on one concept. The count the tool reports is the number
    of distinct concept IRIs of the rows with a label; it is at most the
    number of these rows, and smaller for two rows whose labels have the
    same slug. *)
Theorem C10_same_slug_one_concept :
  (forall (base_iri lang : string) (rows : list (gmap string string)),
     let g := (import_csv_to_skos rows base_iri lang).1 in
     let count := (import_csv_to_skos rows base_iri lang).2 in
     let valid := filter valid_row rows in
     (forall r1 r2, row_slug r1 = row_slug r2 -> row_iri base_iri r1 = row_iri base_iri r2)
     /\ (forall r1 r2, r1 ∈ valid -> r2 ∈ valid -> row_slug r1 = row_slug r2 ->
           forall t, t ∈ row_triples base_iri lang r1 ++ row_triples base_iri lang r2 ->
                     t ∈ g /\ subject_of t = row_iri base_iri r1)
     /\ count = Z.of_nat (length (remove_dups (row_iri base_iri <$> valid)))
     /\ count <= Z.of_nat (length valid))
  /\ (length (filter valid_row colliding_rows) = 2%nat
      /\ row_slug <$> colliding_rows = ["practical-life"; "practical-life"]
      /\ (import_csv_to_skos colliding_rows "https://example.org/" "en").2 = 1
      /\ objects (import_csv_to_skos colliding_rows "https://example.org/" "en").1
           (URIRef "https://example.org/concept/practical-life") SKOS.prefLabel
         = [ Lit (Literal_ "Practical Life" (Some "en"));
             Lit (Literal_ "practical-life" (Some "en")) ]).
Proof.
  split; [|split_and!; by vm_compute].
  intros base_iri lang rows g count valid.
  assert (Hiri : forall r1 r2, row_slug r1 = row_slug r2 ->
                              row_iri base_iri r1 = row_iri base_iri r2).
  { intros r1 r2 Hs. unfold row_iri. by rewrite Hs. }
  assert (Hcount : count = Z.of_nat (length (remove_dups (row_iri base_iri <$> valid)))).
  { unfold count, import_csv_to_skos. simpl. rewrite scheme_graph. f_equal.
    apply Permutation_length, NoDup_Permutation.
    - apply subjects_NoDup, NoDup_import_rows, NoDup_scheme_triples.
    - apply NoDup_remove_dups.
    - intros s. unfold valid. rewrite elem_of_remove_dups, <- import_csv_concepts.
      by rewrite import_csv_graph. }
  split_and!; [done| |done|].
  - intros r1 r2 H1 H2 Hs t Ht.
    apply list_elem_of_filter in H1 as [Hv1 H1]. apply list_elem_of_filter in H2 as [Hv2 H2].
    unfold g. rewrite import_csv_graph, elem_of_import_rows.
    apply elem_of_app in Ht as [Ht|Ht].
    + split; [right; by exists r1|by apply row_triples_subject in Ht].
    + split; [right; by exists r2|]. apply row_triples_subject in Ht.
      rewrite Ht. symmetry. by apply Hiri.
  - rewrite Hcount. apply inj_le.
    rewrite <- (length_fmap (row_iri base_iri) valid).
    apply submseteq_length, NoDup_submseteq; [apply NoDup_remove_dups|].
    intros s. by rewrite elem_of_remove_dups.
Qed.

(** The altLabel of the second sample row is on the concept of the first. *)
Lemma C10_same_slug_one_concept_witness :
  (row_iri "https://example.org/" practical_life_again, SKOS.altLabel,
   Lit (Literal_ "Daily living" (Some "en")))
  ∈ (import_csv_to_skos colliding_rows "https://example.org/" "en").1
  /\ subject_of (row_iri "https://example.org/" practical_life_again, SKOS.altLabel,
                 Lit (Literal_ "Daily living" (Some "en")))
     = row_iri "https://example.org/" practical_life_row.
Proof.
  pose proof (proj1 C10_same_slug_one_concept "https://example.org/" "en" colliding_rows)
    as (_ & Hmerge & _).
  apply (Hmerge practical_life_row practical_life_again).
  - apply list_elem_of_filter. split; [by vm_compute|]. apply elem_of_cons. by left.
  - apply list_elem_of_filter. split; [by vm_compute|].
    apply elem_of_cons. right. apply elem_of_cons. by left.
  - by vm_compute.
  - apply elem_of_app. right. apply elem_of_row_triples. do 4 right.
    exists "Daily living". split_and!; [|by vm_compute|by vm_compute].
    vm_compute. apply elem_of_cons. by left.
Defined.

(** * Further properties of the code *)

(** ** The selector *)

Lemma first_exact_elem literals lang lit :
  first_exact literals lang = Some lit -> Lit lit ∈ literals.
Proof.
  induction literals as [|n rest IH]; simpl; [done|].
  destruct n as [s|s|l]; try (intros Hr; right; by apply IH).
  case_bool_decide as Hex; [intros [= ->]; by left|intros Hr; right; by apply IH].
Qed.

Lemma last_langless_elem literals lit :
  last_langless literals = Some lit -> Lit lit ∈ literals.
Proof.
  induction literals as [|n rest IH]; simpl; [done|].
  destruct (last_langless rest) as [l'|]; [intros [= ->]; right; by apply IH|].
  destruct n as [s|s|l]; try done.
  case_bool_decide as Hl; [intros [= ->]; by left|done].
Qed.

Lemma before_exact_subseteq literals lang n :
  n ∈ before_exact literals lang -> n ∈ literals.
Proof.
  induction literals as [|m rest IH]; simpl; [done|].
  destruct (is_exact lang m); [intros H; by apply elem_of_nil in H|].
  intros H. apply elem_of_cons in H as [->|H]; [by left|right; by apply IH].
Qed.

Lemma node_or_cases a b : node_or a b = a \/ node_or a b = b.
Proof. unfold node_or. destruct a as [n|]; [destruct (truthy n)|]; tauto. Qed.

Lemma node_or_some a m : node_or a (Some m) <> None.
Proof. unfold node_or. destruct a as [n|]; [by destruct (truthy n)|done]. Qed.

Lemma select_lang_literal_elem (literals : list Node) (lang : string) (n : Node) :
  _select_lang_literal literals lang = Some n -> n ∈ literals.
Proof.
  rewrite select_lang_literal_spec. intros Hn.
  destruct (node_or_cases
              (node_or (Lit <$> first_exact literals lang)
                       (Lit <$> last_langless (before_exact literals lang)))
              (head literals)) as [Hc|Hc]; rewrite Hc in Hn.
  - destruct (node_or_cases (Lit <$> first_exact literals lang)
                (Lit <$> last_langless (before_exact literals lang))) as [Hd|Hd];
      rewrite Hd in Hn.
    + destruct (first_exact literals lang) as [lit|] eqn:E; [|done].
      injection Hn as <-. by apply first_exact_elem in E.
    + destruct (last_langless (before_exact literals lang)) as [lit|] eqn:E; [|done].
      injection Hn as <-. apply last_langless_elem in E.
      by apply before_exact_subseteq in E.
  - destruct literals as [|m rest]; [done|]. injection Hn as <-. by left.
Qed.

(** X1. The selector answers with one of the candidates it was given,
    and it has no answer only when there is no candidate. *)
Theorem select_returns_candidate (literals : list Node) (lang : string) :
  (_select_lang_literal literals lang = None <-> literals = [])
  /\ (forall n, _select_lang_literal literals lang = Some n -> n ∈ literals).
Proof.
  split; [|intros n; apply select_lang_literal_elem].
  rewrite select_lang_literal_spec. split; [|by intros ->].
  destruct literals as [|m rest]; [done|]. intros Hnone.
  by apply (node_or_some _ m) in Hnone.
Qed.

(** The first exact match of the sample candidates, were its text not
    empty. *)
Lemma select_exact_truthy_witness :
  _select_lang_literal [Lit (Literal_ "Apple" None); Lit (Literal_ "Apfel" (Some "de"))] "de"
  = Some (Lit (Literal_ "Apfel" (Some "de"))).
Proof.
  apply (select_exact_truthy _ "de" (Literal_ "Apfel" (Some "de"))); reflexivity.
Defined.

Lemma select_fallback_witness :
  _select_lang_literal [Lit (Literal_ "Apple" None); Lit (Literal_ "Apfel" (Some "de"))] "fr"
  = Some (Lit (Literal_ "Apple" None)).
Proof.
  pose proof (select_fallback
                [Lit (Literal_ "Apple" None); Lit (Literal_ "Apfel" (Some "de"))] "fr"
                eq_refl) as (Hlast & _ & _).
  apply Hlast; reflexivity.
Defined.

Lemma first_exact_language literals lang lit :
  first_exact literals lang = Some lit -> language lit = Some lang.
Proof.
  induction literals as [|n rest IH]; simpl; [done|].
  destruct n as [s|s|l]; try done.
  case_bool_decide as Hex; [by intros [= <-]|done].
Qed.

Lemma first_exact_exists literals lang lit :
  Lit lit ∈ literals -> language lit = Some lang -> first_exact literals lang <> None.
Proof.
  induction literals as [|n rest IH]; intros Hin Hl; [by apply elem_of_nil in Hin|].
  apply elem_of_cons in Hin as [<-|Hin]; simpl.
  - by rewrite bool_decide_eq_true_2.
  - destruct n as [s|s|l]; try (by apply IH). case_bool_decide; [done|by apply IH].
Qed.

(** X4. When exactly one candidate is tagged with the requested language
    and it is true as a Python value, the selector returns it wherever it
    stands among the candidates. *)
Theorem select_unique_exact (literals : list Node) (lang : string) (lit : Literal) :
  Lit lit ∈ literals ->
  language lit = Some lang ->
  Literal_bool lit = true ->
  (forall lit', Lit lit' ∈ literals -> language lit' = Some lang -> lit' = lit) ->
  _select_lang_literal literals lang = Some (Lit lit).
Proof.
  intros Hin Hl Ht Huniq.
  destruct (first_exact literals lang) as [lit'|] eqn:Hex;
    [|by apply (first_exact_exists _ _ _ Hin Hl) in Hex].
  assert (lit' = lit) as ->.
  { apply Huniq; [by apply first_exact_elem in Hex|by apply first_exact_language in Hex]. }
  rewrite select_lang_literal_spec, Hex. unfold node_or. simpl. rewrite Ht. simpl.
  by rewrite Ht.
Qed.

Lemma select_unique_exact_witness :
  _select_lang_literal
    [Lit (Literal_ "Apple" None); Lit (Literal_ "Apfel" (Some "de"));
     Lit (Literal_ "Pomme" (Some "fr"))] "fr"
  = Some (Lit (Literal_ "Pomme" (Some "fr"))).
Proof.
  apply (select_unique_exact _ "fr" (Literal_ "Pomme" (Some "fr"))).
  - apply elem_of_cons. right. apply elem_of_cons. right. apply elem_of_cons. by left.
  - reflexivity.
  - reflexivity.
  - intros lit' Hin Hl.
    apply elem_of_cons in Hin as [[= ->]|Hin]; [discriminate Hl|].
    apply elem_of_cons in Hin as [[= ->]|Hin]; [discriminate Hl|].
    apply elem_of_cons in Hin as [[= ->]|Hin]; [done|]. by apply elem_of_nil in Hin.
Defined.

(** ** Loading *)

Lemma get_graph_cases (fs : FileSystem) (self : SKOSGraphService) :
  (exists g,
     get_graph fs self = (Ok g, (_ensure_loaded fs self).2)
     /\ (_ensure_loaded fs self).1 = Ok tt
     /\ _graph (_ensure_loaded fs self).2 = Some g)
  \/ (exists mtime msg,
        fs (_ttl_path self) = Present mtime (Malformed msg)
        /\ get_graph fs self = (Raise (ParserError msg), self)).
Proof.
  unfold get_graph, mbind, Method_bind, _ensure_loaded, getmtime.
  destruct (fs (_ttl_path self)) as [|mtime [g|msg]] eqn:Hfs; simpl.
  - case_bool_decide as Hg; simpl.
    + case_bool_decide as Hm; simpl; [|left; by exists []].
      destruct (_graph self) as [g|] eqn:Eg; [|done]. left. by exists g.
    + left. by exists [].
  - case_bool_decide as Hg; simpl.
    + case_bool_decide as Hm; simpl; [|left; by exists g].
      destruct (_graph self) as [g0|] eqn:Eg; [|done]. left. by exists g0.
    + left. by exists g.
  - case_bool_decide as Hg; simpl.
    + case_bool_decide as Hm; simpl; [|right; by exists mtime, msg].
      destruct (_graph self) as [g0|] eqn:Eg; [|done]. left. by exists g0.
    + right. by exists mtime, msg.
Qed.

(** X5. [get_graph] never fails its assertion. It returns the graph the
    service holds after [_ensure_loaded]; or a load was attempted on a
    malformed file, the parse error is raised and the service is as it
    was. *)
Theorem get_graph_outcome (fs : FileSystem) (self : SKOSGraphService) :
  (exists g,
     get_graph fs self = (Ok g, (_ensure_loaded fs self).2)
     /\ (_ensure_loaded fs self).1 = Ok tt
     /\ _graph (_ensure_loaded fs self).2 = Some g)
  \/ (exists mtime msg,
        fs (_ttl_path self) = Present mtime (Malformed msg)
        /\ get_graph fs self = (Raise (ParserError msg), self)).
Proof. apply get_graph_cases. Qed.

(** X6. Loading is cached: after [_ensure_loaded] has returned, a second
    call on the same file system returns at once and assigns nothing. *)
Theorem ensure_loaded_idempotent fs self self' :
  _ensure_loaded fs self = (Ok tt, self') ->
  _ensure_loaded fs self' = (Ok tt, self').
Proof.
  unfold _ensure_loaded, getmtime.
  destruct (fs (_ttl_path self)) as [|mtime [g|msg]] eqn:Hfs; simpl.
  - case_bool_decide as Hg; simpl; [case_bool_decide as Hm; simpl|].
    + intros [= <-]. rewrite Hfs. by rewrite !bool_decide_eq_true_2.
    + intros [= <-]. simpl. by rewrite Hfs.
    + intros [= <-]. simpl. by rewrite Hfs.
  - case_bool_decide as Hg; simpl; [case_bool_decide as Hm; simpl|].
    + intros [= <-]. rewrite Hfs. by rewrite !bool_decide_eq_true_2.
    + intros [= <-]. simpl. rewrite Hfs. simpl. by rewrite bool_decide_eq_true_2.
    + intros [= <-]. simpl. rewrite Hfs. simpl. by rewrite bool_decide_eq_true_2.
  - case_bool_decide as Hg; simpl; [case_bool_decide as Hm; simpl|]; [|done|done].
    intros [= <-]. rewrite Hfs. by rewrite !bool_decide_eq_true_2.
Qed.

Lemma ensure_loaded_idempotent_witness :
  _ensure_loaded good_file loaded_service = (Ok tt, loaded_service).
Proof. apply (ensure_loaded_idempotent good_file fresh_service). reflexivity. Defined.

(** X7. The cache goes by the modification time alone: a service that
    holds a graph recorded with the file's present modification time
    returns that graph without reading the file, whatever the file now
    holds, be it another graph or malformed text. *)
Theorem get_graph_cached fs self g mtime content :
  _graph self = Some g ->
  _last_loaded_mtime self = Some mtime ->
  fs (_ttl_path self) = Present mtime content ->
  get_graph fs self = (Ok g, self).
Proof.
  intros Hg Hm Hfs. unfold get_graph, mbind, Method_bind, _ensure_loaded, getmtime.
  rewrite Hfs, Hg, Hm. rewrite !bool_decide_eq_true_2 by done. simpl. by rewrite Hg.
Qed.

(** The sample service, the file rewritten with malformed text and the
    same modification time. *)
Lemma get_graph_cached_witness :
  get_graph (fun _ => Present 1 (Malformed "Bad syntax")) loaded_service
  = (Ok apple_graph, loaded_service).
Proof.
  apply (get_graph_cached _ loaded_service apple_graph 1 (Malformed "Bad syntax"));
    reflexivity.
Defined.

(** X8. With a well-formed file, a service that holds no graph, or one
    recorded with another modification time, loads the file: [get_graph]
    returns the file's graph and the service records it with the file's
    modification time. [reload] does so whatever the service holds. *)
Theorem get_graph_fresh fs self mtime g :
  fs (_ttl_path self) = Present mtime (WellFormed g) ->
  (_graph self = None \/ _last_loaded_mtime self <> Some mtime ->
     get_graph fs self = (Ok g, set_loaded self (Some g) (Some mtime)))
  /\ reload fs self = (Ok tt, set_loaded self (Some g) (Some mtime))
  /\ get_graph fs (reload fs self).2 = (Ok g, set_loaded self (Some g) (Some mtime)).
Proof.
  intros Hfs. split_and!.
  - intros Hstale. unfold get_graph, mbind, Method_bind, _ensure_loaded, getmtime. rewrite Hfs.
    destruct Hstale as [Hg|Hm].
    + rewrite Hg. by rewrite (bool_decide_eq_false_2 (None ≠ None)) by (by intros ?).
    + rewrite (bool_decide_eq_false_2 (_last_loaded_mtime self = Some mtime)) by done.
      by rewrite andb_false_r.
  - unfold reload, _ensure_loaded, getmtime. simpl. by rewrite Hfs.
  - unfold reload, get_graph, mbind, Method_bind, _ensure_loaded, getmtime. simpl.
    rewrite Hfs. simpl. rewrite Hfs. simpl. by rewrite bool_decide_eq_true_2.
Qed.

Lemma get_graph_fresh_witness :
  get_graph good_file fresh_service = (Ok apple_graph, loaded_service).
Proof.
  pose proof (get_graph_fresh good_file fresh_service 1 apple_graph eq_refl) as (Hload & _).
  apply Hload. by left.
Defined.

(** X9. While the file is malformed and the service holds no graph
    recorded with the file's modification time, every query raises the
    parse error and leaves the service as it was: a graph loaded earlier
    stays in the service but is not served. *)
Theorem malformed_file_blocks_queries fs self mtime msg :
  fs (_ttl_path self) = Present mtime (Malformed msg) ->
  _graph self = None \/ _last_loaded_mtime self <> Some mtime ->
  get_graph fs self = (Raise (ParserError msg), self)
  /\ (forall limit offset lang,
        list_concepts limit offset lang fs self = (Raise (ParserError msg), self))
  /\ (forall query limit lang,
        search_concepts query limit lang fs self = (Raise (ParserError msg), self))
  /\ (forall iri lang,
        get_concept_detail iri lang fs self = (Raise (ParserError msg), self))
  /\ (forall writers format,
        serialize writers format fs self = (Raise (ParserError msg), self)).
Proof.
  intros Hfs Hstale.
  assert (Hg : get_graph fs self = (Raise (ParserError msg), self)).
  { unfold get_graph, mbind, Method_bind, _ensure_loaded, getmtime. rewrite Hfs.
    destruct Hstale as [Hg|Hm].
    - rewrite Hg. by rewrite (bool_decide_eq_false_2 (None ≠ None)) by (by intros ?).
    - rewrite (bool_decide_eq_false_2 (_last_loaded_mtime self = Some mtime)) by done.
      by rewrite andb_false_r. }
  split_and!; [done|..]; intros;
    unfold list_concepts, search_concepts, get_concept_detail, serialize, mbind, Method_bind;
    by rewrite Hg.
Qed.

(** The sample service after its file has become malformed. *)
Lemma malformed_file_blocks_queries_witness :
  list_concepts 100 0 None bad_file loaded_service
  = (Raise (ParserError "Bad syntax"), loaded_service).
Proof.
  pose proof (malformed_file_blocks_queries bad_file loaded_service 2 "Bad syntax" eq_refl)
    as Hblock.
  apply Hblock. right. by vm_compute.
Defined.

(** X10. In every state the service can be in, a recorded modification
    time comes with a graph, and a graph recorded without modification
    time is empty. *)
Theorem service_invariant (self : SKOSGraphService) :
  reachable self ->
  (_graph self = None -> _last_loaded_mtime self = None)
  /\ (_last_loaded_mtime self = None -> forall g, _graph self = Some g -> g = []).
Proof.
  intros Hr. split; [|by apply reachable_consistent].
  assert (Hstep : forall fs s,
            (_graph s = None -> _last_loaded_mtime s = None) ->
            _graph (_ensure_loaded fs s).2 = None ->
            _last_loaded_mtime (_ensure_loaded fs s).2 = None).
  { intros fs s Hs. unfold _ensure_loaded, getmtime.
    destruct (fs (_ttl_path s)) as [|mtime [g|msg]]; simpl;
      repeat case_bool_decide; simpl; done. }
  induction Hr as [p l|fs s _ IH|fs s _ IH]; [done|by apply Hstep|].
  unfold reload. by apply Hstep.
Qed.

Lemma service_invariant_witness :
  (_graph loaded_service = None -> _last_loaded_mtime loaded_service = None)
  /\ (_last_loaded_mtime loaded_service = None ->
      forall g, _graph loaded_service = Some g -> g = []).
Proof.
  apply (service_invariant loaded_service).
  apply (reachable_ensure_loaded good_file fresh_service), reachable_init.
Defined.

Lemma ensure_loaded_config fs self :
  _ttl_path (_ensure_loaded fs self).2 = _ttl_path self
  /\ _default_language (_ensure_loaded fs self).2 = _default_language self.
Proof.
  unfold _ensure_loaded, getmtime.
  destruct (fs (_ttl_path self)) as [|mtime [g|msg]]; simpl;
    repeat case_bool_decide; simpl; done.
Qed.

Lemma query_state {A} (f : Graph -> string -> A) fs self :
  ((g ← get_graph; default_language ← attr _default_language;
    mret (f g default_language)) fs self).2
  = (_ensure_loaded fs self).2.
Proof.
  unfold mbind, Method_bind.
  destruct (get_graph_cases fs self) as [(g & -> & _ & _)|(mtime & msg & Hfs & ->)].
  - done.
  - simpl. unfold _ensure_loaded, getmtime. rewrite Hfs.
    destruct (bool_decide (_graph self ≠ None) && _); done.
Qed.

(** X11. No call changes the path or the default language of the
    service, and a query leaves the service in the state that
    [_ensure_loaded] alone leaves it in: a query assigns nothing of its
    own. *)
Theorem calls_keep_configuration (fs : FileSystem) (self : SKOSGraphService) :
  (_ttl_path (_ensure_loaded fs self).2 = _ttl_path self
   /\ _default_language (_ensure_loaded fs self).2 = _default_language self)
  /\ (_ttl_path (reload fs self).2 = _ttl_path self
      /\ _default_language (reload fs self).2 = _default_language self)
  /\ (get_graph fs self).2 = (_ensure_loaded fs self).2
  /\ (forall limit offset lang,
        (list_concepts limit offset lang fs self).2 = (_ensure_loaded fs self).2)
  /\ (forall query limit lang,
        (search_concepts query limit lang fs self).2 = (_ensure_loaded fs self).2)
  /\ (forall iri lang,
        (get_concept_detail iri lang fs self).2 = (_ensure_loaded fs self).2)
  /\ (forall writers format,
        (serialize writers format fs self).2 = (_ensure_loaded fs self).2).
Proof.
  assert (Hget : (get_graph fs self).2 = (_ensure_loaded fs self).2).
  { destruct (get_graph_cases fs self) as [(g & -> & _ & _)|(mtime & msg & Hfs & ->)];
      [done|].
    simpl. unfold _ensure_loaded, getmtime. rewrite Hfs.
    destruct (bool_decide (_graph self ≠ None) && _); done. }
  split; [apply ensure_loaded_config|].
  split; [unfold reload; apply (ensure_loaded_config fs (set_loaded self None None))|].
  split; [done|]. split_and!.
  - intros limit offset lang.
    apply (query_state (fun g d => list_concepts_in g d limit offset lang)).
  - intros query limit lang.
    apply (query_state (fun g d => search_concepts_in g d query limit lang)).
  - intros name lang.
    apply (query_state (fun g d => get_concept_detail_in g d name lang)).
  - intros writers format. rewrite <- Hget.
    unfold serialize, Graph_serialize, mbind, Method_bind.
    destruct (get_graph fs self) as [[g|e] self']; [|done]. simpl.
    repeat (case_bool_decide; [by destruct (writer_error writers _ g)|]). done.
Qed.

(** ** Listing *)

(** X12. For an offset and a limit that are not negative, the page of
    [list_concepts] has [limit] summaries, or the concepts left from the
    offset on when these are fewer; from the total on the page is empty. *)
Theorem list_concepts_page_length (g : Graph) (default_language : string)
    (limit offset : Z) (lang : option string) :
  0 <= offset -> 0 <= limit ->
  let total := (list_concepts_in g default_language limit offset lang).2 in
  Z.of_nat (length (list_concepts_in g default_language limit offset lang).1)
  = Z.min limit (Z.max 0 (total - offset)).
Proof.
  intros Ho Hl. unfold list_concepts_in. simpl.
  rewrite length_fmap, slice_take_drop by done.
  rewrite length_take, length_drop. lia.
Qed.

Lemma list_concepts_page_length_witness :
  Z.of_nat (length (list_concepts_in three_concepts "en" 2 2 None).1)
  = Z.min 2 (Z.max 0 ((list_concepts_in three_concepts "en" 2 2 None).2 - 2)).
Proof. apply (list_concepts_page_length three_concepts "en" 2 2 None); lia. Defined.

(** ** Searching *)

Lemma search_loop_take g lang lower_q limit todo results :
  Z.of_nat (length results) < limit ->
  search_loop g lang lower_q limit todo results
  = take (Z.to_nat limit) (results ++ all_hits g lang lower_q todo).
Proof.
  revert results. induction todo as [|subject rest IH]; intros results Hlen.
  - simpl. rewrite app_nil_r, take_ge; [done|lia].
  - cbn [search_loop]. unfold all_hits. cbn [omap list_omap].
    fold (all_hits g lang lower_q rest).
    destruct (match_label (search_labels g subject) lang lower_q) as [text|]; simpl.
    + destruct (Z.geb_spec (Z.of_nat (length (results ++ [hit g lang subject text]))) limit)
        as [Hge|Hlt].
      * rewrite length_app in Hge. simpl in Hge.
        rewrite (cons_middle _ results (all_hits g lang lower_q rest)), app_assoc.
        rewrite take_app_le by (rewrite length_app; simpl; lia).
        rewrite take_ge; [done|rewrite length_app; simpl; lia].
      * rewrite IH by done. by rewrite <- app_assoc.
    + destruct (Z.geb_spec (Z.of_nat (length results)) limit) as [Hge|Hlt]; [lia|].
      by apply IH.
Qed.

(** X13. For a limit of at least 1, [search_concepts] returns the first
    [limit] hits of the search without limit: the concepts with a
    matching label, in the order of the enumeration, each once. *)
Theorem search_concepts_prefix (g : Graph) (default_language query : string)
    (limit : Z) (lang : option string) :
  1 <= limit ->
  let lang' := Py.str_or_default lang default_language in
  search_concepts_in g default_language query limit lang
  = take (Z.to_nat limit)
      (all_hits g lang' (Py.lower query) (subjects g RDF.type SKOS.Concept)).
Proof.
  intros Hl lang'. unfold search_concepts_in. rewrite search_loop_take by (simpl; lia). done.
Qed.

Lemma search_concepts_prefix_witness :
  search_concepts_in apple_graph "en" "P" 1 None
  = take 1 (all_hits apple_graph "en" "p" (subjects apple_graph RDF.type SKOS.Concept)).
Proof. apply (search_concepts_prefix apple_graph "en" "P" 1 None). lia. Defined.

Lemma search_concepts_empty_query_witness :
  exists r, r ∈ search_concepts_in apple_graph "en" "" 50 None
            /\ iri r = "http://example.org/apple".
Proof.
  apply (search_concepts_empty_query apple_graph "en" 50 None apple
           (Literal_ "Apple" (Some "en"))).
  - by vm_compute.
  - vm_compute. apply elem_of_cons. by left.
  - vm_compute. apply elem_of_cons. by left.
  - by right.
Defined.

(** ** Concept details *)

Lemma setdefault_append_keys values k x :
  (fst <$> setdefault_append values k x)
  = if decide (k ∈ (fst <$> values)) then (fst <$> values) else (fst <$> values) ++ [k].
Proof.
  induction values as [|[k0 v0] values IH]; csimpl.
  - done.
  - case_bool_decide as Hk; csimpl.
    + subst k0. rewrite decide_True by (by left). done.
    + rewrite IH. case_decide as Hin.
      * rewrite decide_True by (by right). done.
      * rewrite decide_False; [done|].
        intros Hin'. apply elem_of_cons in Hin' as [->|Hin']; done.
Qed.

Lemma setdefault_append_elem values k x k' t' :
  NoDup (fst <$> values) ->
  ((k', t') ∈ setdefault_append values k x <->
   (k' <> k /\ (k', t') ∈ values)
   \/ (k' = k /\ ((exists t, (k, t) ∈ values /\ t' = t ++ [x])
                  \/ ((k ∉ fst <$> values) /\ t' = [x])))).
Proof.
  induction values as [|[k0 v0] values IH]; csimpl; intros Hnd.
  - rewrite list_elem_of_singleton. split.
    + intros [= -> ->]. right. split; [done|]. right. split; [|done].
      intros Hin. by apply elem_of_nil in Hin.
    + intros [[_ Hin]|[-> [(t & Hin & _)|[_ ->]]]]; try (by apply elem_of_nil in Hin). done.
  - apply NoDup_cons in Hnd as [Hk0 Hnd]. specialize (IH Hnd).
    assert (Hfresh : forall t, (k0, t) ∈ values -> False).
    { intros t Hin. apply Hk0. apply list_elem_of_fmap. by exists (k0, t). }
    case_bool_decide as Hk.
    + subst k0. rewrite !elem_of_cons. split.
      * intros [[= -> ->]|Hin].
        -- right. split; [done|]. left. exists v0. split; [by left|done].
        -- left. split; [|by right]. intros ->. by eapply Hfresh.
      * intros [[Hne [[= -> ->]|Hin]]|[-> [(t & Hin & ->)|[Hnot _]]]]; try done.
        -- by right.
        -- apply elem_of_cons in Hin as [[= ->]|Hin]; [by left|]. by apply Hfresh in Hin.
        -- exfalso. apply Hnot. by left.
    + rewrite !elem_of_cons, IH. split.
      * intros [[= -> ->]|[[Hne Hin]|[-> [(t & Hin & ->)|[Hnot ->]]]]].
        -- left. split; [done|by left].
        -- left. split; [done|by right].
        -- right. split; [done|]. left. exists t. split; [by right|done].
        -- right. split; [done|]. right. split; [|done].
           intros [->|Hin]; done.
      * intros [[Hne [[= -> ->]|Hin]]|[-> [(t & Hin & ->)|[Hnot ->]]]].
        -- by left.
        -- right. left. by split.
        -- apply elem_of_cons in Hin as [[= -> ->]|Hin]; [done|].
           right. right. split; [done|]. left. by exists t.
        -- right. right. split; [done|]. right. split; [|done].
           intros Hin. apply Hnot. by right.
Qed.

Lemma texts_under_snoc k seen o :
  texts_under k (seen ++ [o])
  = texts_under k seen
    ++ match o with
       | Lit l => if bool_decide (lang_key l = k) then [lexical l] else []
       | _ => []
       end.
Proof.
  unfold texts_under. rewrite omap_app. f_equal.
  destruct o as [s|s|l]; simpl; try done. by case_bool_decide.
Qed.

Lemma groups_of_step values seen o :
  groups_of values seen ->
  groups_of
    match o with
    | Lit lit => setdefault_append values (Py.str_or_default (language lit) "und") (lexical lit)
    | _ => values
    end
    (seen ++ [o]).
Proof.
  intros [Hnd Hinv].
  assert (Hkeys : forall k, k ∈ (fst <$> values) <-> texts_under k seen <> []).
  { intros k. rewrite list_elem_of_fmap. split.
    - intros ([k0 t] & -> & Hin). simpl. apply Hinv in Hin as [Hne <-]. done.
    - intros Hne. exists (k, texts_under k seen). split; [done|]. by apply Hinv. }
  destruct o as [s|s|l].
  - split; [done|]. intros k texts. by rewrite texts_under_snoc, app_nil_r.
  - split; [done|]. intros k texts. by rewrite texts_under_snoc, app_nil_r.
  - fold (lang_key l). split.
    + rewrite setdefault_append_keys. case_decide as Hin; [done|].
      apply NoDup_app. split_and!; [done| |apply NoDup_singleton].
      intros k Hk Hk'. apply list_elem_of_singleton in Hk'. by subst.
    + intros k texts. rewrite setdefault_append_elem, texts_under_snoc by done.
      case_bool_decide as Hk.
      * subst k. split.
        -- intros [[Hne _]|[_ [(t & Hin & ->)|[Hnot ->]]]]; [done| |].
           ++ apply Hinv in Hin as [_ <-]. split; [by destruct t|done].
           ++ split; [done|].
              destruct (texts_under (lang_key l) seen) eqn:E; [done|].
              exfalso. apply Hnot, Hkeys. by rewrite E.
        -- intros [_ ->]. right. split; [done|].
           destruct (texts_under (lang_key l) seen) as [|t0 ts] eqn:E.
           ++ right. split; [|done]. intros Hin. apply Hkeys in Hin. by rewrite E in Hin.
           ++ left. exists (t0 :: ts). split; [|done]. apply Hinv. by rewrite E.
      * rewrite app_nil_r, <- Hinv. split.
        -- intros [[_ Hin]|[-> _]]; done.
        -- intros Hin. left. split; [by intros ->|done].
Qed.

Lemma groups_of_fold objs values seen :
  groups_of values seen ->
  groups_of
    (fold_left
       (fun values o =>
          match o with
          | Lit lit =>
              setdefault_append values (Py.str_or_default (language lit) "und") (lexical lit)
          | _ => values
          end)
       objs values)
    (seen ++ objs).
Proof.
  revert values seen. induction objs as [|o objs IH]; intros values seen Hg; simpl.
  - by rewrite app_nil_r.
  - rewrite (cons_middle o seen objs), app_assoc. apply IH. by apply groups_of_step.
Qed.

(** X16. [_get_literals] groups the literal values of a subject and
    predicate by language: the keys are distinct; a key is present
    exactly when some literal has it as language, or has no language for
    the key ["und"]; and it is filed with the texts of these literals, in
    the order of the enumeration. Values that are not literals are left
    out. *)
Theorem get_literals_groups (g : Graph) (subject predicate : Node) :
  let values := _get_literals g subject predicate in
  NoDup (fst <$> values)
  /\ forall k texts,
       (k, texts) ∈ values <->
       texts <> [] /\ texts = texts_under k (objects g subject predicate).
Proof.
  intros values.
  apply (groups_of_fold (objects g subject predicate) [] []).
  split; [apply NoDup_nil_2|].
  intros k texts. split; [intros Hin; by apply elem_of_nil in Hin|by intros [? ->]].
Qed.

Lemma elem_of_objects (g : Graph) (s p o : Node) :
  o ∈ objects g s p <-> (s, p, o) ∈ g.
Proof.
  unfold objects. rewrite list_elem_of_fmap. split.
  - intros ([[s' p'] o'] & -> & Ht). apply list_elem_of_filter in Ht as [[Hs Hp] Ht].
    unfold subject_of, predicate_of in *. simpl in *. by subst.
  - intros Ht. exists (s, p, o). split; [done|]. by apply list_elem_of_filter.
Qed.

(** X17. [get_concept_detail] knows a concept by its IRI: it finds
    nothing exactly when no IRI node of that name is typed
    [skos:Concept], so that a concept that is a blank node is listed by
    [list_concepts] but found under no name. What it finds carries the
    name asked for and, for the same language, the best label and
    definition that the concept's summary carries. *)
Theorem concept_detail_lookup (g : Graph) (default_language iri : string)
    (lang : option string) :
  let lang' := Py.str_or_default lang default_language in
  (get_concept_detail_in g default_language iri lang = None
   <-> URIRef iri ∉ subjects g RDF.type SKOS.Concept)
  /\ (forall d, get_concept_detail_in g default_language iri lang = Some d ->
        detail_iri d = iri
        /\ detail_bestPrefLabel d = pref_label (summarize g lang' (URIRef iri))
        /\ detail_bestDefinition d = definition (summarize g lang' (URIRef iri)))
  /\ (forall id, BNode id ∈ subjects g RDF.type SKOS.Concept ->
        URIRef id ∉ subjects g RDF.type SKOS.Concept ->
        get_concept_detail_in g default_language (str (BNode id)) lang = None).
Proof.
  intros lang'.
  assert (Hnone : forall i, get_concept_detail_in g default_language i lang = None
                            <-> URIRef i ∉ subjects g RDF.type SKOS.Concept).
  { intros i. unfold get_concept_detail_in. rewrite elem_of_subjects.
    case_bool_decide as Hin; [done|]. split; [done|]. intros Hn. by destruct Hn. }
  split_and!; [apply Hnone| |].
  - intros d. unfold get_concept_detail_in. case_bool_decide as Hin; [done|].
    intros [= <-]. by simpl.
  - intros id _ Hno. by apply Hnone.
Qed.

(** X18. The best label of a concept's detail, when the selector chose a
    literal, is one of the labels the detail lists, under the literal's
    language (or ["und"]). *)
Theorem detail_best_label_is_listed (g : Graph) (default_language iri : string)
    (lang : option string) (d : ConceptDetail) (l : Literal) :
  get_concept_detail_in g default_language iri lang = Some d ->
  _select_lang_literal (objects g (URIRef iri) SKOS.prefLabel)
    (Py.str_or_default lang default_language) = Some (Lit l) ->
  detail_bestPrefLabel d = Some (lexical l)
  /\ exists texts, (lang_key l, texts) ∈ detail_prefLabel d /\ lexical l ∈ texts.
Proof.
  unfold get_concept_detail_in. case_bool_decide as Hin; [done|]. intros [= <-] Hsel. simpl.
  split; [unfold _get_best_label; by rewrite Hsel|].
  apply select_lang_literal_elem in Hsel.
  exists (texts_under (lang_key l) (objects g (URIRef iri) SKOS.prefLabel)).
  assert (Hl : lexical l ∈ texts_under (lang_key l) (objects g (URIRef iri) SKOS.prefLabel)).
  { unfold texts_under. apply list_elem_of_omap. exists (Lit l). split; [done|].
    by rewrite bool_decide_eq_true_2. }
  split; [|done].
  pose proof (groups_of_fold (objects g (URIRef iri) SKOS.prefLabel) [] []) as [_ Hgroups].
  { split; [apply NoDup_nil_2|]. intros k texts.
    split; [intros Hn; by apply elem_of_nil in Hn|by intros [? ->]]. }
  apply Hgroups. split; [|done]. intros Hnil. rewrite Hnil in Hl. by apply elem_of_nil in Hl.
Qed.

Lemma detail_best_label_is_listed_witness :
  exists d,
    get_concept_detail_in apple_graph "en" "http://example.org/apple" None = Some d
    /\ detail_bestPrefLabel d = Some "Apple"
    /\ exists texts, ("en", texts) ∈ detail_prefLabel d /\ "Apple" ∈ texts.
Proof.
  destruct (get_concept_detail_in apple_graph "en" "http://example.org/apple" None)
    as [d|] eqn:Hd; [|by vm_compute in Hd].
  exists d. split; [done|].
  apply (detail_best_label_is_listed apple_graph "en" "http://example.org/apple" None d
           (Literal_ "Apple" (Some "en")) Hd).
  reflexivity.
Defined.

(** ** Slugs *)

Lemma isspace_lower_char c : Py.isspace (Py.lower_char c) = Py.isspace c.
Proof. destruct c as [[] [] [] [] [] [] [] []]; reflexivity. Qed.

Lemma lstrip_lower s : Py.lstrip (Py.lower s) = Py.lower (Py.lstrip s).
Proof.
  induction s as [|c s IH]; [done|]. cbn [Py.lower Py.lstrip].
  rewrite isspace_lower_char. by destruct (Py.isspace c).
Qed.

Lemma rstrip_lower s :
  Py.rstrip_by Py.isspace (Py.lower s) = Py.lower (Py.rstrip_by Py.isspace s).
Proof.
  induction s as [|c s IH]; [done|]. cbn [Py.lower Py.rstrip_by]. rewrite IH.
  destruct (Py.rstrip_by Py.isspace s) as [|c' r]; cbn [Py.lower]; [|done].
  rewrite isspace_lower_char. by destruct (Py.isspace c).
Qed.

(** Trimming and lowering commute. *)
Lemma strip_lower s : Py.strip (Py.lower s) = Py.lower (Py.strip s).
Proof. unfold Py.strip. by rewrite rstrip_lower, lstrip_lower. Qed.

(** X19. The slug of a label does not depend on the letter case of the
    label nor on the white space around it. *)
Theorem slugify_insensitive (value : string) :
  slugify (Py.lower value) = slugify value
  /\ slugify (Py.strip value) = slugify value.
Proof.
  unfold slugify. split.
  - by rewrite strip_lower, lower_idemp.
  - by rewrite strip_idemp.
Qed.

Lemma all_chars_app p s t :
  all_chars p (s +:+ t) = all_chars p s && all_chars p t.
Proof.
  induction s as [|c s IH]; [done|].
  change (String c s +:+ t) with (String c (s +:+ t)). cbn [all_chars].
  by rewrite IH, andb_assoc.
Qed.

Lemma lower_char_not_upper c : is_upper (Py.lower_char c) = false.
Proof. destruct c as [[] [] [] [] [] [] [] []]; reflexivity. Qed.

Lemma quote_char_shape c rest :
  is_upper c = false ->
  slug_shape
    (if Py.always_safe c then String c rest
     else String "%" (String (Py.hex_digit (nat_of_ascii c / 16))
                        (String (Py.hex_digit (nat_of_ascii c mod 16)) rest)))
  = slug_shape rest.
Proof.
  destruct c as [[] [] [] [] [] [] [] []]; intros H; vm_compute in H;
    try discriminate H; reflexivity.
Qed.

Lemma quote_shape s :
  all_chars (fun c => negb (is_upper c)) s = true ->
  slug_shape (Py.quote s) = true.
Proof.
  induction s as [|c s IH]; [done|]. cbn [all_chars Py.quote].
  intros H. apply andb_true_iff in H as [Hc Hs]. apply negb_true_iff in Hc.
  pose proof (quote_char_shape c (Py.quote s) Hc) as Hq.
  destruct (Py.always_safe c); by rewrite Hq, IH.
Qed.

Lemma lower_no_upper s : all_chars (fun c => negb (is_upper c)) (Py.lower s) = true.
Proof.
  induction s as [|c s IH]; [done|]. cbn [Py.lower all_chars].
  by rewrite lower_char_not_upper, IH.
Qed.

Lemma replace_no_upper s :
  all_chars (fun c => negb (is_upper c)) s = true ->
  all_chars (fun c => negb (is_upper c)) (Py.replace " " "-" s) = true.
Proof.
  induction s as [|c s IH]; [done|]. cbn [all_chars Py.replace].
  intros H. apply andb_true_iff in H as [Hc Hs]. case_bool_decide.
  - change ("-" +:+ Py.replace " " "-" s) with (String "-" (Py.replace " " "-" s)).
    cbn [all_chars]. by rewrite IH.
  - cbn [all_chars]. by rewrite Hc, IH.
Qed.

(** X20. A slug is a sequence of lower-case letters, digits, the
    characters [_.-~] and escapes, each a percent sign followed by two
    upper-case hexadecimal digits, and of nothing else: it holds no
    space and no slash, and no upper-case letter and no percent sign
    but in an escape. *)
Theorem slugify_url_safe (value : string) :
  slug_shape (slugify value) = true.
Proof. unfold slugify. apply quote_shape, replace_no_upper, lower_no_upper. Qed.

(** ** The import tool, further *)

Lemma add_all_present ts g : (forall t, t ∈ ts -> t ∈ g) -> fold_left add ts g = g.
Proof.
  induction ts as [|t ts IH]; intros Hin; simpl; [done|].
  unfold add at 2. rewrite decide_True by (apply Hin; by left).
  apply IH. intros t' Ht'. apply Hin. by right.
Qed.

Lemma import_rows_present base_iri lang rows g :
  (forall row t, row ∈ rows -> valid_row row -> t ∈ row_triples base_iri lang row -> t ∈ g) ->
  fold_left (import_row base_iri lang) rows g = g.
Proof.
  induction rows as [|row rows IH]; intros Hin; simpl; [done|].
  rewrite import_row_triples. case_bool_decide as Hl.
  - apply IH. intros r t Hr. apply Hin. by right.
  - rewrite add_all_present.
    + apply IH. intros r t Hr. apply Hin. by right.
    + intros t Ht. apply (Hin row); [by left|done|done].
Qed.

Lemma import_rows_valid base_iri lang rows g :
  fold_left (import_row base_iri lang) (filter valid_row rows) g
  = fold_left (import_row base_iri lang) rows g.
Proof.
  revert g. induction rows as [|row rows IH]; intros g; [done|].
  destruct (decide (valid_row row)) as [Hv|Hv].
  - rewrite filter_cons_True by done. simpl. apply IH.
  - rewrite filter_cons_False by done. simpl. rewrite IH. f_equal.
    rewrite import_row_triples. unfold valid_row in Hv.
    rewrite bool_decide_eq_true_2; [done|]. by destruct (decide (row_label row = EmptyString)).
Qed.

(** X21. The import tool builds the same graph and reports the same
    count when the rows without label are taken out beforehand, and when
    the rows are given twice over: a row met again adds nothing. *)
Theorem import_ignores_blank_and_repeated_rows
    (rows : list (gmap string string)) (base_iri lang : string) :
  import_csv_to_skos (filter valid_row rows) base_iri lang
  = import_csv_to_skos rows base_iri lang
  /\ import_csv_to_skos (rows ++ rows) base_iri lang = import_csv_to_skos rows base_iri lang.
Proof.
  unfold import_csv_to_skos. rewrite !scheme_graph. split.
  - by rewrite import_rows_valid.
  - rewrite fold_left_app.
    rewrite (import_rows_present base_iri lang rows
               (fold_left (import_row base_iri lang) rows (scheme_triples base_iri lang)));
      [done|].
    intros row t Hrow Hv Ht. apply elem_of_import_rows. right. by exists row.
Qed.

Lemma lower_nonempty s : s <> EmptyString -> Py.lower s <> EmptyString.
Proof. by destruct s. Qed.

Lemma replace_nonempty s : s <> EmptyString -> Py.replace " " "-" s <> EmptyString.
Proof. destruct s as [|c s]; [done|]. intros _. cbn [Py.replace]. by case_bool_decide. Qed.

Lemma quote_nonempty s : s <> EmptyString -> Py.quote s <> EmptyString.
Proof. destruct s as [|c s]; [done|]. intros _. cbn [Py.quote]. by destruct (Py.always_safe c). Qed.

Lemma row_label_stripped row : Py.strip (row_label row) = row_label row.
Proof. unfold row_label. apply strip_idemp. Qed.

(** X22. A row with a label has a slug that is not empty, its [id] cell
    or the slug of its label: no concept gets the bare IRI
    [base/concept/]. *)
Theorem valid_row_has_slug (row : gmap string string) :
  valid_row row -> row_slug row <> EmptyString.
Proof.
  intros Hv. unfold row_slug, Py.str_or_default.
  assert (Hslug : slugify (row_label row) <> EmptyString).
  { unfold slugify. rewrite row_label_stripped.
    by apply quote_nonempty, replace_nonempty, lower_nonempty. }
  destruct (row !! "id") as [[|c s]|]; done.
Qed.

Lemma valid_row_has_slug_witness :
  valid_row sensorial_row /\ row_slug sensorial_row <> EmptyString.
Proof.
  assert (Hv : valid_row sensorial_row) by (by vm_compute).
  split; [done|]. apply (valid_row_has_slug sensorial_row Hv).
Defined.

(** The triples of the graph the tool builds: those of the scheme and
    those of the rows with a label. *)
Lemma elem_of_import_csv rows base_iri lang t :
  t ∈ (import_csv_to_skos rows base_iri lang).1 <->
  t ∈ scheme_triples base_iri lang
  \/ exists row, row ∈ rows /\ valid_row row /\ t ∈ row_triples base_iri lang row.
Proof. by rewrite import_csv_graph, elem_of_import_rows. Qed.

Lemma append_inj_l p a b : p +:+ a = p +:+ b -> a = b.
Proof.
  induction p as [|c p IH]; [done|].
  change (String c p +:+ a) with (String c (p +:+ a)).
  change (String c p +:+ b) with (String c (p +:+ b)).
  intros [= H]. by apply IH.
Qed.

Lemma scheme_not_concept rows base_iri lang :
  scheme_of base_iri ∉ subjects (import_csv_to_skos rows base_iri lang).1 RDF.type SKOS.Concept.
Proof.
  intros Hs. apply import_csv_concepts, list_elem_of_fmap in Hs as (row & Hs & _).
  unfold scheme_of, row_iri in Hs. injection Hs as Hs.
  apply append_inj_l in Hs. discriminate Hs.
Qed.

(** X23. In the graph the import tool builds, every concept is linked to
    the scheme and has a prefLabel with a text that is not empty; every
    triple is about the scheme or about a concept; no literal has an
    empty text; and the scheme is no concept, whatever the ids and the
    labels of the rows. *)
Theorem import_graph_well_formed
    (rows : list (gmap string string)) (base_iri lang : string) :
  let g := (import_csv_to_skos rows base_iri lang).1 in
  (forall s, s ∈ subjects g RDF.type SKOS.Concept ->
     (s, SKOS.inScheme, scheme_of base_iri) ∈ g
     /\ exists label, label <> EmptyString
                      /\ (s, SKOS.prefLabel, Lit (Literal_ label (Some lang))) ∈ g)
  /\ (forall t, t ∈ g ->
        subject_of t = scheme_of base_iri \/ subject_of t ∈ subjects g RDF.type SKOS.Concept)
  /\ (forall t l, t ∈ g -> object_of t = Lit l ->
        lexical l <> EmptyString /\ Literal_bool l = true)
  /\ scheme_of base_iri ∉ subjects g RDF.type SKOS.Concept.
Proof.
  intros g. split_and!; [| | |apply scheme_not_concept].
  - intros s Hs. apply import_csv_concepts in Hs.
    apply list_elem_of_fmap in Hs as (row & -> & Hrow).
    apply list_elem_of_filter in Hrow as [Hv Hrow].
    split.
    + apply elem_of_import_csv. right. exists row. split_and!; try done.
      apply elem_of_row_triples. simpl. tauto.
    + exists (row_label row). split; [done|].
      apply elem_of_import_csv. right. exists row. split_and!; try done.
      apply elem_of_row_triples. simpl. tauto.
  - intros t Ht. apply elem_of_import_csv in Ht as [Ht|(row & Hrow & Hv & Ht)].
    + left. unfold scheme_triples in Ht. by membership Ht.
    + right. rewrite (row_triples_subject _ _ _ _ Ht).
      apply import_csv_concepts, list_elem_of_fmap. exists row. split; [done|].
      by apply list_elem_of_filter.
  - intros t l Ht Ho.
    assert (Hlit : forall text, text <> EmptyString -> l = Literal_ text (Some lang) ->
                     lexical l <> EmptyString /\ Literal_bool l = true).
    { intros text Hne ->. split; [done|]. unfold Literal_bool. simpl.
      by rewrite bool_decide_eq_false_2. }
    apply elem_of_import_csv in Ht as [Ht|(row & Hrow & Hv & Ht)].
    + unfold scheme_triples in Ht. membership Ht; simpl in Ho; [done|].
      injection Ho as <-. eapply Hlit; [|reflexivity]; done.
    + apply elem_of_row_triples in Ht. simpl in Ht.
      destruct Ht as [->|[->|[->|[[Hd ->]|(segment & _ & Hs & ->)]]]];
        simpl in Ho; try done; injection Ho as <-; (eapply Hlit; [|reflexivity]); done.
Qed.

(** X24. For a language that is not empty, take any graph that holds
    the triples of an imported graph, in whatever order (as after writing
    and reading the Turtle file). The best label the service finds there
    for a concept, asked in the language of the import, is the label of
    one of the rows that gave the concept: the selector never falls back
    and never finds nothing. *)
Theorem import_best_label
    (rows : list (gmap string string)) (base_iri lang : string) (g : Graph) (s : Node) :
  lang <> EmptyString ->
  (forall t, t ∈ g <-> t ∈ (import_csv_to_skos rows base_iri lang).1) ->
  s ∈ subjects g RDF.type SKOS.Concept ->
  exists row,
    row ∈ rows /\ valid_row row /\ row_iri base_iri row = s
    /\ _get_best_label g s lang = Some (row_label row).
Proof.
  intros Hlang Hsame Hs.
  assert (Hlabels : forall n, n ∈ objects g s SKOS.prefLabel ->
            exists row, row ∈ rows /\ valid_row row /\ row_iri base_iri row = s
                        /\ n = Lit (Literal_ (row_label row) (Some lang))).
  { intros n Hn. apply elem_of_objects, Hsame, elem_of_import_csv in Hn
      as [Hn|(row & Hrow & Hv & Hn)].
    - unfold scheme_triples in Hn. membership Hn; discriminate.
    - apply elem_of_row_triples in Hn. simpl in Hn. exists row.
      destruct Hn as [Hn|[Hn|[Hn|[[_ Hn]|(segment & _ & _ & Hn)]]]];
        try discriminate Hn.
      injection Hn as -> ->. done. }
  destruct (objects g s SKOS.prefLabel) as [|n rest] eqn:Hobjs.
  - exfalso. apply elem_of_subjects, Hsame in Hs.
    apply elem_of_subjects, import_csv_concepts in Hs.
    apply list_elem_of_fmap in Hs as (row & -> & Hrow).
    apply list_elem_of_filter in Hrow as [Hv Hrow].
    assert (Hin : Lit (Literal_ (row_label row) (Some lang))
                  ∈ objects g (row_iri base_iri row) SKOS.prefLabel).
    { apply elem_of_objects, Hsame, elem_of_import_csv. right. exists row.
      split_and!; try done. apply elem_of_row_triples. simpl. tauto. }
    rewrite Hobjs in Hin. by apply elem_of_nil in Hin.
  - destruct (Hlabels n) as (row & Hrow & Hv & Hiri & ->); [by left|].
    exists row. split_and!; try done.
    unfold _get_best_label. rewrite Hobjs, select_lang_literal_spec.
    destruct lang as [|c lang]; [done|]. simpl.
    rewrite bool_decide_eq_true_2 by done. unfold node_or. simpl.
    unfold Literal_bool. simpl.
    destruct (negb (bool_decide (row_label row = EmptyString))) eqn:Hne; simpl; [|done].
    unfold Literal_bool. simpl. by rewrite Hne.
Qed.

(** The imported sample graph with its triples in reverse order. *)
Lemma import_best_label_witness :
  exists row,
    row ∈ colliding_rows /\ valid_row row
    /\ row_iri "https://example.org/" row
       = URIRef "https://example.org/concept/practical-life"
    /\ _get_best_label
         (reverse (import_csv_to_skos colliding_rows "https://example.org/" "en").1)
         (URIRef "https://example.org/concept/practical-life") "en"
       = Some (row_label row).
Proof.
  apply (import_best_label colliding_rows "https://example.org/" "en"
           (reverse (import_csv_to_skos colliding_rows "https://example.org/" "en").1)
           (URIRef "https://example.org/concept/practical-life")).
  - done.
  - intros t. apply elem_of_reverse.
  - vm_compute. apply elem_of_cons. by left.
Defined.

Lemma all_chars_lstrip p s : all_chars p s = true -> all_chars p (Py.lstrip s) = true.
Proof.
  induction s as [|c s IH]; [done|]. cbn [Py.lstrip all_chars]. intros H.
  destruct (Py.isspace c); [|done]. apply andb_true_iff in H as [_ H]. by apply IH.
Qed.

Lemma all_chars_rstrip p drop s :
  all_chars p s = true -> all_chars p (Py.rstrip_by drop s) = true.
Proof.
  induction s as [|c s IH]; [done|]. cbn [Py.rstrip_by all_chars]. intros H.
  apply andb_true_iff in H as [Hc Hs]. specialize (IH Hs).
  destruct (Py.rstrip_by drop s) as [|c' r].
  - destruct (drop c); [done|]. cbn [all_chars]. by rewrite Hc.
  - cbn [all_chars] in *. by rewrite Hc, IH.
Qed.

Lemma split_no_sep sep s piece :
  piece ∈ Py.split sep s ->
  all_chars (fun c => negb (bool_decide (c = sep))) piece = true.
Proof.
  revert piece. induction s as [|c s IH]; intros piece; cbn [Py.split].
  - intros Hin. apply list_elem_of_singleton in Hin. by subst.
  - case_bool_decide as Hc.
    + intros Hin. apply elem_of_cons in Hin as [->|Hin]; [done|by apply IH].
    + destruct (Py.split sep s) as [|p ps].
      * intros Hin. apply list_elem_of_singleton in Hin. subst. cbn [all_chars].
        by rewrite bool_decide_eq_false_2.
      * intros Hin. apply elem_of_cons in Hin as [->|Hin].
        -- cbn [all_chars]. rewrite bool_decide_eq_false_2 by done. simpl.
           apply IH. by left.
        -- apply IH. by right.
Qed.

(** X25. The altLabels the import tool takes from a cell are clean: none
    is empty, none has white space around it, and none holds a pipe. *)
Theorem alt_items_clean (alt a : string) :
  a ∈ alt_items alt ->
  a <> EmptyString
  /\ Py.strip a = a
  /\ all_chars (fun c => negb (bool_decide (c = "|"%char))) a = true.
Proof.
  unfold alt_items. intros Ha. apply list_elem_of_filter in Ha as [Hne Ha].
  apply list_elem_of_fmap in Ha as (segment & -> & Hs).
  split_and!; [done|apply strip_idemp|].
  unfold Py.strip. apply all_chars_lstrip, all_chars_rstrip.
  by apply (split_no_sep _ alt).
Qed.

Lemma alt_items_clean_witness :
  "Sensorial Tools" <> EmptyString
  /\ Py.strip "Sensorial Tools" = "Sensorial Tools"
  /\ all_chars (fun c => negb (bool_decide (c = "|"%char))) "Sensorial Tools" = true.
Proof.
  apply (alt_items_clean "Sensory Materials | Sensorial Tools " "Sensorial Tools").
  vm_compute. apply elem_of_cons. right. apply elem_of_cons. by left.
Defined.

(** ** The HTTP handlers *)

Lemma unquote_quote_char c rest :
  unquote
    (if Py.always_safe c then String c rest
     else String "%" (String (Py.hex_digit (nat_of_ascii c / 16))
                        (String (Py.hex_digit (nat_of_ascii c mod 16)) rest)))
  = String c (unquote rest).
Proof. destruct c as [[] [] [] [] [] [] [] []]; reflexivity. Qed.

Lemma unquote_quote_id s : unquote (Py.quote s) = s.
Proof.
  induction s as [|c s IH]; [done|]. cbn [Py.quote].
  pose proof (unquote_quote_char c (Py.quote s)) as Hc.
  destruct (Py.always_safe c); by rewrite Hc, IH.
Qed.

(** X26. Decoding undoes encoding: [unquote] gives back any text from
    what [quote] with no safe character makes of it. *)
Theorem unquote_quote (s : string) : unquote (Py.quote s) = s.
Proof. apply unquote_quote_id. Qed.

(** X27. The handler [get_concept] as a function of the argument it is
    called with, once the graph is loaded: given the percent-encoded IRI
    of a concept it returns the concept's detail, which carries the IRI;
    given a name that decodes to no concept IRI it raises
    [HTTPException] with the status 404. (What the framework passes to
    the handler for a request path is not modelled.) *)
Theorem get_concept_by_encoded_iri fs self g self' :
  get_graph fs self = (Ok g, self') ->
  (forall iri, URIRef iri ∈ subjects g RDF.type SKOS.Concept ->
     exists d, main.get_concept (Py.quote iri) fs self = (Respond d, self')
               /\ detail_iri d = iri)
  /\ (forall iri_encoded,
        URIRef (unquote iri_encoded) ∉ subjects g RDF.type SKOS.Concept ->
        main.get_concept iri_encoded fs self
        = (HTTPException 404 "Concept not found", self')).
Proof.
  intros Hg.
  assert (Hroute : forall iri_encoded,
            main.get_concept iri_encoded fs self
            = match get_concept_detail_in g (_default_language self') (unquote iri_encoded) None
              with
              | None => (HTTPException 404 "Concept not found", self')
              | Some d => (Respond d, self')
              end).
  { intros iri_encoded. unfold main.get_concept, get_concept_detail, mbind, Method_bind.
    rewrite Hg. simpl. by destruct (get_concept_detail_in _ _ _ _). }
  split.
  - intros iri Hiri. rewrite Hroute, unquote_quote_id.
    unfold get_concept_detail_in. apply elem_of_subjects in Hiri.
    rewrite bool_decide_eq_false_2 by (by intros Hn). eauto.
  - intros iri_encoded Hno. rewrite Hroute.
    unfold get_concept_detail_in. rewrite elem_of_subjects in Hno.
    by rewrite bool_decide_eq_true_2.
Qed.

Lemma get_concept_by_encoded_iri_witness :
  exists d,
    main.get_concept "http%3A%2F%2Fexample.org%2Fapple" good_file fresh_service
    = (Respond d, loaded_service)
    /\ detail_iri d = "http://example.org/apple".
Proof.
  pose proof (get_concept_by_encoded_iri good_file fresh_service apple_graph loaded_service
                eq_refl) as [Hfound _].
  apply (Hfound "http://example.org/apple").
  vm_compute. apply elem_of_cons. by left.
Defined.



Lemma slice_length_le {A} (l : list A) (start n : Z) :
  0 <= n -> Z.of_nat (length (Py.slice l start (start + n))) <= n.
Proof.
  intros Hn. unfold Py.slice, Py.slice_index. rewrite length_take, length_drop.
  destruct (Z.ltb_spec start 0); destruct (Z.ltb_spec (start + n) 0); lia.
Qed.

(** X29. [GET /concepts] with a limit of at least 1 answers with at most
    [limit] summaries, whatever the query and the offset: the summaries
    found when [q] is a string that is not empty, the total and a page
    otherwise. It raises no HTTP error and lets nothing through but the
    parse error of a malformed file. *)
Theorem concepts_route_at_most_limit (q : option string) (limit offset : Z)
    (fs : FileSystem) (self : SKOSGraphService) :
  1 <= limit ->
  match (main.list_concepts q limit offset fs self).1 with
  | Respond (FoundBody items) =>
      (exists c q', q = Some (String c q')) /\ Z.of_nat (length items) <= limit
  | Respond (PageBody total items) =>
      (q = None \/ q = Some EmptyString) /\ Z.of_nat (length items) <= limit
  | HTTPException _ _ => False
  | Unhandled e => exists msg, e = ParserError msg
  end.
Proof.
  intros Hlimit. unfold main.list_concepts.
  assert (Hsearch : forall query,
            match (search_concepts query limit None fs self).1 with
            | Ok results => Z.of_nat (length results) <= limit
            | Raise e => exists msg, e = ParserError msg
            end).
  { intros query. unfold search_concepts, mbind, Method_bind.
    destruct (get_graph_cases fs self) as [(g & -> & _ & _)|(mtime & msg & _ & ->)]; simpl.
    - by apply search_concepts_at_most_limit.
    - by exists msg. }
  assert (Hlist : match (list_concepts limit offset None fs self).1 with
                  | Ok (results, total) => Z.of_nat (length results) <= limit
                  | Raise e => exists msg, e = ParserError msg
                  end).
  { unfold list_concepts, mbind, Method_bind.
    destruct (get_graph_cases fs self) as [(g & -> & _ & _)|(mtime & msg & _ & ->)]; simpl.
    - rewrite length_fmap. apply slice_length_le. lia.
    - by exists msg. }
  destruct q as [[|c q']|].
  - destruct (list_concepts limit offset None fs self) as [[[results total]|e] self'];
      simpl in *; [|done]. split; [by right|done].
  - specialize (Hsearch (String c q')).
    destruct (search_concepts (String c q') limit None fs self) as [[results|e] self'];
      simpl in *; [|done]. split; [by exists c, q'|done].
  - destruct (list_concepts limit offset None fs self) as [[[results total]|e] self'];
      simpl in *; [|done]. split; [by left|done].
Qed.

Lemma concepts_route_at_most_limit_witness :
  match (main.list_concepts (Some "apple") 1 0 good_file fresh_service).1 with
  | Respond (FoundBody items) =>
      (exists c q', Some "apple" = Some (String c q')) /\ Z.of_nat (length items) <= 1
  | Respond (PageBody total items) =>
      (Some "apple" = None \/ Some "apple" = Some EmptyString)
      /\ Z.of_nat (length items) <= 1
  | HTTPException _ _ => False
  | Unhandled e => exists msg, e = ParserError msg
  end.
Proof.
  apply (concepts_route_at_most_limit (Some "apple") 1 0 good_file fresh_service). lia.
Defined.
